(** * Endpoint parsing and server start-up checks of [cmd/server-main.go]

    A shallow embedding of the endpoint handling in the [server] command:
    [parseStorageEndpoints], [checkSufficientDisks], [checkEndpointURL],
    [checkEndpointsSyntax], [checkServerSyntax], [isAnyEndpointLocal],
    [getHostPort] and the start-up sequence of [serverMain].

    Go strings are byte strings and are modelled by [string]; [int] values
    are modelled by [Z] (no computation here leaves the 64-bit range: they
    are lengths of argument lists and counters bounded by them). *)

From Stdlib Require Import Bool Arith ZArith Lia List Ascii String.
From Stdlib Require Import Permutation Sorted RelationClasses OrdersEx.
Import ListNotations.

Local Open Scope string_scope.
Local Open Scope Z_scope.

(** ** Byte strings: the helpers of Go's [strings] and [bytealg] used below *)

Module GoString.

(** [len(s)] *)
Definition len (s : string) : Z := Z.of_nat (String.length s).

(** [s[lo:hi]] for [0 <= lo <= hi <= len(s)] *)
Definition slice (s : string) (lo hi : Z) : string :=
  String.substring (Z.to_nat lo) (Z.to_nat (hi - lo)) s.

(** [s[lo:]] *)
Definition sliceFrom (s : string) (lo : Z) : string :=
  slice s lo (len s).

(** [bytealg.IndexByteString]: index of the first [c] in [s], or -1. *)
Fixpoint IndexByte (s : string) (c : ascii) : Z :=
  match s with
  | EmptyString => -1
  | String a rest =>
      if Ascii.eqb a c then 0
      else let i := IndexByte rest c in
           if i <? 0 then -1 else i + 1
  end.

(** [last] of package [net]: index of the last [c] in [s], or -1. *)
Fixpoint last (s : string) (c : ascii) : Z :=
  match s with
  | EmptyString => -1
  | String a rest =>
      let i := last rest c in
      if 0 <=? i then i + 1
      else if Ascii.eqb a c then 0 else -1
  end.

(** [strings.HasPrefix(s, p)] *)
Definition HasPrefix (s p : string) : bool := String.prefix p s.

(** [strings.Contains(s, sub)] *)
Fixpoint Contains (s sub : string) : bool :=
  HasPrefix s sub ||
  match s with
  | EmptyString => false
  | String _ rest => Contains rest sub
  end.

(** [strings.ToLower] on ASCII bytes. *)
Definition lowerByte (c : ascii) : ascii :=
  let n := nat_of_ascii c in
  if ((65 <=? n) && (n <=? 90))%nat then ascii_of_nat (n + 32) else c.

Fixpoint ToLower (s : string) : string :=
  match s with
  | EmptyString => EmptyString
  | String a rest => String (lowerByte a) (ToLower rest)
  end.

(** [strings.SplitN(s, sep, 2)] for a one-byte separator: the text before
    the first separator and, when there is one, the text after it. *)
Definition SplitN2 (s : string) (sep : ascii) : list string :=
  let i := IndexByte s sep in
  if i <? 0 then [s] else [slice s 0 i; sliceFrom s (i + 1)].

(** [strings.Join] *)
Definition Join (l : list string) (sep : string) : string :=
  String.concat sep l.

(** [a < b] on strings: byte-wise lexicographic. *)
Definition ltb (a b : string) : bool :=
  match String_as_OT.compare a b with Lt => true | _ => false end.

End GoString.

(** ** Errors *)

(** [*net.AddrError] *)
Record AddrError := mkAddrError { AddrErr : string; AddrAddr : string }.

(** The [error] values that flow through this file.  The four sentinels are
    package variables declared elsewhere ([errors.New] values, compared by
    identity); [errEmptyPort] is declared in this file. *)
Inductive error : Type :=
| errInvalidArgument
| errXLMaxDisks
| errXLMinDisks
| errXLNumDisks
| errEmptyPort
| ErrAddr (e : AddrError)          (* a *net.AddrError *)
| Errorf (msg : string)            (* fmt.Errorf / errors.New with its text *)
| ErrParse (url why : string)      (* *url.Error of url.Parse *)
| ErrNum (func num why : string).  (* *strconv.NumError *)

(** Functions returning [(T, error)]. *)
Inductive result (A : Type) : Type :=
| Ok (a : A)
| Failed (e : error).
Arguments Ok {A} a.
Arguments Failed {A} e.

(** The [Error] method of [AddrError] *)
Definition AddrError_Error (e : AddrError) : string :=
  if String.eqb (AddrAddr e) "" then AddrErr e
  else "address " ++ AddrAddr e ++ ": " ++ AddrErr e.

(** ** Package [net]: host and port *)

Definition missingPort : string := "missing port in address".
Definition tooManyColons : string := "too many colons in address".

Definition addrErr (addr why : string) : string * string * option AddrError :=
  ("", "", Some (mkAddrError why addr)).

(** [net.SplitHostPort] *)
Definition net_SplitHostPort (hostport : string)
  : string * string * option AddrError :=
  let i := GoString.last hostport ":" in
  if i <? 0 then addrErr hostport missingPort else
  let bracket :=
    match hostport with
    | String "[" _ =>
        let e := GoString.IndexByte hostport "]" in
        if e <? 0 then inl (addrErr hostport "missing ']' in address")
        else if e + 1 =? GoString.len hostport then inl (addrErr hostport missingPort)
        else if e + 1 =? i then inr (GoString.slice hostport 1 e, 1, e + 1)
        else match String.get (Z.to_nat (e + 1)) hostport with
             | Some ":"%char => inl (addrErr hostport tooManyColons)
             | _ => inl (addrErr hostport missingPort)
             end
    | _ =>
        let host := GoString.slice hostport 0 i in
        if 0 <=? GoString.IndexByte host ":" then inl (addrErr hostport tooManyColons)
        else inr (host, 0, 0)
    end in
  match bracket with
  | inl failure => failure
  | inr (host, j, k) =>
      if 0 <=? GoString.IndexByte (GoString.sliceFrom hostport j) "["
      then addrErr hostport "unexpected '[' in address"
      else if 0 <=? GoString.IndexByte (GoString.sliceFrom hostport k) "]"
      then addrErr hostport "unexpected ']' in address"
      else (host, GoString.sliceFrom hostport (i + 1), None)
  end.

(** [net.JoinHostPort] *)
Definition net_JoinHostPort (host port : string) : string :=
  if (0 <=? GoString.IndexByte host ":") || (0 <=? GoString.IndexByte host "%")
  then "[" ++ host ++ "]:" ++ port
  else host ++ ":" ++ port.

(** ** [url.URL] *)

(** The fields of [url.URL] that the server command reads or that decide
    its textual form; [User], [RawPath] and [ForceQuery] are left out. *)
Record URL := mkURL {
  Scheme : string;
  Opaque : string;
  Host : string;
  Path : string;
  RawQuery : string;
  Fragment : string
}.

Definition URL_withHost (u : URL) (h : string) : URL :=
  mkURL (Scheme u) (Opaque u) h (Path u) (RawQuery u) (Fragment u).

(** ** Process-wide variables read by the checks *)

Record Globals := mkGlobals {
  globalMinioHost : string;
  globalMinioPort : string;
  globalIsSSL : bool
}.


(** ** Package [path]: [Clean] *)

Module GoPath.

Definition slash : ascii := "/"%char.
Definition dot : ascii := "."%char.

(** Is the read position at the end of the path or on a slash? *)
Definition atEndOrSlash (p : list ascii) : bool :=
  match p with
  | [] => true
  | c :: _ => Ascii.eqb c slash
  end.

(** The element copied by the inner loop of the default case, and what is
    left of the path after it. *)
Fixpoint element (p : list ascii) : list ascii * list ascii :=
  match p with
  | [] => ([], [])
  | c :: rest =>
      if Ascii.eqb c slash then ([], p)
      else let '(e, r) := element rest in (c :: e, r)
  end.

(** Backtracking over the last element.  The buffer is kept reversed: its
    head is the byte at [out.w - 1].  After [out.w--] the byte [x] is the
    one at [out.w]; the loop goes on while [out.w > dotdot] and that byte
    is no slash. *)
Fixpoint backtrack (out : list ascii) (x : ascii) (dotdot : Z) : list ascii :=
  match out with
  | [] => []
  | y :: out' =>
      if (dotdot <? Z.of_nat (List.length out)) && negb (Ascii.eqb x slash)
      then backtrack out' y dotdot
      else out
  end.

(** The main loop of [Clean]: [p] is [path[r:]], [out] the reversed buffer.
    Every turn consumes a byte of [p], so [List.length p] turns are enough. *)
Fixpoint loop (fuel : nat) (rooted : bool) (p : list ascii)
    (out : list ascii) (dotdot : Z) : list ascii :=
  match fuel with
  | O => out
  | S fuel' =>
      let w := Z.of_nat (List.length out) in
      match p with
      | [] => out
      | c :: p1 =>
          if Ascii.eqb c slash then
            (* empty path element *)
            loop fuel' rooted p1 out dotdot
          else if Ascii.eqb c dot && atEndOrSlash p1 then
            (* . element *)
            loop fuel' rooted p1 out dotdot
          else if Ascii.eqb c dot &&
                  match p1 with
                  | c1 :: p2 => Ascii.eqb c1 dot && atEndOrSlash p2
                  | [] => false
                  end then
            (* .. element: remove to last / *)
            let p2 := List.tl p1 in
            if dotdot <? w then
              match out with
              | x :: out' => loop fuel' rooted p2 (backtrack out' x dotdot) dotdot
              | [] => loop fuel' rooted p2 out dotdot
              end
            else if negb rooted then
              let out1 := if 0 <? w then slash :: out else out in
              let out2 := dot :: dot :: out1 in
              loop fuel' rooted p2 out2 (Z.of_nat (List.length out2))
            else loop fuel' rooted p2 out dotdot
          else
            (* real path element: add slash if needed, copy element *)
            let out1 :=
              if (rooted && negb (w =? 1)) || (negb rooted && negb (w =? 0))
              then slash :: out else out in
            let '(e, rest) := element p in
            loop fuel' rooted rest (List.rev e ++ out1) dotdot
      end
  end.

(** [path.Clean] *)
Definition Clean (path : string) : string :=
  if String.eqb path "" then "." else
  let p := list_ascii_of_string path in
  let rooted := match p with c :: _ => Ascii.eqb c slash | [] => false end in
  let out :=
    if rooted then loop (List.length p) rooted (List.tl p) [slash] 1
    else loop (List.length p) rooted p [] 0 in
  match out with
  | [] => "."
  | _ => string_of_list_ascii (List.rev out)
  end.

End GoPath.

(** ** Package [strconv]: [Atoi] *)

Module GoStrconv.

(** The decimal digits of [ParseUint], most significant first. *)
Fixpoint digits (s : string) (acc : Z) : option Z :=
  match s with
  | EmptyString => Some acc
  | String c rest =>
      let n := Z.of_nat (nat_of_ascii c) in
      if (48 <=? n) && (n <=? 57) then digits rest (acc * 10 + (n - 48))
      else None
  end.

Definition syntaxError (s : string) : error := ErrNum "ParseInt" s "invalid syntax".
Definition rangeError (s : string) : error := ErrNum "ParseInt" s "value out of range".

(** [strconv.Atoi] on a 64-bit platform. *)
Definition Atoi (s0 : string) : result Z :=
  match s0 with
  | EmptyString => Failed (syntaxError s0)
  | String c rest =>
      let neg := Ascii.eqb c "-" in
      let s := if Ascii.eqb c "+" || neg then rest else s0 in
      match s with
      | EmptyString => Failed (syntaxError s0)
      | _ =>
          match digits s 0 with
          | None => Failed (syntaxError s0)
          | Some un =>
              let cutoff := 2 ^ 63 in
              if negb neg && (cutoff <=? un) then Failed (rangeError s0)
              else if neg && (cutoff <? un) then Failed (rangeError s0)
              else Ok (if neg then - un else un)
          end
      end
  end.

End GoStrconv.

(** ** Control flow of the process

    [fatalIf] (declared with the logger) logs and ends the process when its
    error is not nil; [cli.ShowCommandHelpAndExit] ends it with the given
    code; indexing a slice out of range panics. *)

Inductive ctl (A : Type) : Type :=
| Return (a : A)
| Fatal (e : error) (template : string)
| Exit (code : Z)
| Panic.
Arguments Return {A} a.
Arguments Fatal {A} e template.
Arguments Exit {A} code.
Arguments Panic {A}.

Definition bind {A B : Type} (m : ctl A) (k : A -> ctl B) : ctl B :=
  match m with
  | Return a => k a
  | Fatal e t => Fatal e t
  | Exit n => Exit n
  | Panic => Panic
  end.

Declare Scope ctl_scope.
Delimit Scope ctl_scope with ctl.
Notation "x <- m ;; k" := (bind m (fun x => k))
  (at level 100, m at next level, right associativity) : ctl_scope.
Notation "m ;; k" := (bind m (fun _ => k))
  (at level 100, right associativity) : ctl_scope.

(** [fatalIf(err, msg, data...)]: the model keeps the error value and the
    message template. *)
Definition fatalIf (err : option error) (template : string) : ctl unit :=
  match err with
  | None => Return tt
  | Some e => Fatal e template
  end.

(** A Go [for ... range] whose body may end the process. *)
Fixpoint forEach {A : Type} (body : A -> ctl unit) (l : list A) : ctl unit :=
  match l with
  | [] => Return tt
  | x :: rest => bind (body x) (fun _ => forEach body rest)
  end.

(** ** The [server] command *)

(** What the command reads of its [*cli.Context]: [c.String("address")] and
    [c.Args()]. *)
Record Context := mkContext {
  address : string;
  args : list string
}.

Section Server.

(** [url.Parse] and the [String] method of [url.URL], of package [net/url],
    are parameters of the development. *)
Variable url_Parse : string -> result URL.
Variable URL_String : URL -> string.

(** [runtime.GOOS] *)
Variable GOOS : string.

(** Declared elsewhere in the package: the bounds of an erasure set, the
    locality test (it reads the bind host and port and the addresses of
    the machine), the duplicate check, and the text of the errors that are
    defined outside this file. *)
Variable minErasureBlocks maxErasureBlocks : Z.
Variable isLocalStorage : Globals -> URL -> bool.
Variable checkDuplicateEndpoints : list URL -> option error.
Variable error_text : error -> string.

Variable g : Globals.

(** [err.Error()] *)
Definition error_Error (e : error) : string :=
  match e with
  | ErrAddr a => AddrError_Error a
  | Errorf msg => msg
  | _ => error_text e
  end.

(** The body of the loop of [parseStorageEndpoints] for the token [ep]:
    the endpoint appended to [endpoints], or the error returned. *)
Definition parseStorageEndpoint (ep : string) : result URL :=
  if String.eqb ep "" then Failed errInvalidArgument else
  match url_Parse ep with
  | Failed err => Failed err
  | Ok u =>
      if negb (String.eqb (Host u) "") then
        let '(_, port, err) := net_SplitHostPort (Host u) in
        (* Ignore the missing port error as the default port can be globalMinioPort. *)
        let early :=
          match err with
          | Some e =>
              if negb (GoString.Contains (AddrError_Error e) "missing port in address")
              then Some (ErrAddr e) else None
          | None => None
          end in
        match early with
        | Some e => Failed e
        | None =>
            if String.eqb (globalMinioHost g) "" then
              if negb (String.eqb port "") then
                Failed (Errorf ("Invalid Argument " ++ Host u ++
                                ", port configurable using --address :<port>"))
              else Ok (URL_withHost u (net_JoinHostPort (Host u) (globalMinioPort g)))
            else
              if String.eqb port "" then
                Failed (Errorf ("Invalid Argument " ++ Host u ++
                                ", port mandatory when --address <host>:<port> is used"))
              else Ok u
        end
      else Ok u
  end.

(** The loop of [parseStorageEndpoints], with the endpoints appended so far. *)
Fixpoint parseStorageEndpoints_from (endpoints : list URL) (eps : list string)
  : result (list URL) :=
  match eps with
  | [] => Ok endpoints
  | ep :: rest =>
      match parseStorageEndpoint ep with
      | Failed err => Failed err
      | Ok u => parseStorageEndpoints_from (endpoints ++ [u]) rest
      end
  end.

(** Parse an array of end-points (from the command line) *)
Definition parseStorageEndpoints (eps : list string) : result (list URL) :=
  parseStorageEndpoints_from [] eps.

(** Validate if input disks are sufficient for initializing XL. *)
Definition checkSufficientDisks (eps : list URL) : option error :=
  let total := Z.of_nat (List.length eps) in
  if maxErasureBlocks <? total then Some errXLMaxDisks
  else if total <? minErasureBlocks then Some errXLMinDisks
  else
    let isEven := fun number : Z => Z.rem number 2 =? 0 in
    if negb (isEven total) then Some errXLNumDisks
    else None.

(** Returns if slice of disks is a distributed setup. *)
Fixpoint isDistributedSetup (eps : list URL) : bool :=
  match eps with
  | [] => false
  | ep :: rest =>
      if negb (isLocalStorage g ep) then true else isDistributedSetup rest
  end.

(** The test shared by both branches of [checkEndpointURL]. *)
Definition emptyOrRoot (urlPath : string) : bool :=
  String.eqb urlPath "" || String.eqb urlPath "." ||
  String.eqb urlPath "/" || String.eqb urlPath "\".

(** Is [s] a single byte between ['a'] and ['z']? *)
Definition isDriveScheme (s : string) : bool :=
  match s with
  | String c EmptyString =>
      ((97 <=? nat_of_ascii c) && (nat_of_ascii c <=? 122))%nat
  | _ => false
  end.

(** Check if endpoint is in expected syntax by valid scheme/path across all
    platforms.  The index [[1]] into the result of [strings.SplitN] panics
    when the cleaned text holds no colon. *)
Definition checkEndpointURL (endpointURL : URL) : ctl (option error) :=
  if String.eqb (Scheme endpointURL) "" || String.eqb (Scheme endpointURL) "http"
     || String.eqb (Scheme endpointURL) "https" then
    let urlPath := GoPath.Clean (Path endpointURL) in
    Return (if emptyOrRoot urlPath
            then Some (Errorf "Empty or root path is not allowed") else None)
  else if String.eqb GOOS "windows" && isDriveScheme (Scheme endpointURL) then
    match List.nth_error
            (GoString.SplitN2 (GoPath.Clean (URL_String endpointURL)) ":") 1 with
    | None => Panic
    | Some urlPath =>
        Return (if emptyOrRoot urlPath
                then Some (Errorf "Empty or root path is not allowed") else None)
    end
  else Return (Some (Errorf "Invalid scheme")).

(** The loop of [checkEndpointsSyntax] from index [i] on. *)
Fixpoint checkEndpointsSyntax_from (i : nat) (eps : list URL) (disks : list string)
  : ctl (option error) :=
  match eps with
  | [] => Return None
  | u :: rest =>
      bind (checkEndpointURL u) (fun r =>
        match r with
        | Some err =>
            match List.nth_error disks i with
            | None => Panic
            | Some disk =>
                Return (Some (Errorf (error_Error err ++ ": " ++ Path u ++
                                      " (" ++ disk ++ ")")))
            end
        | None => checkEndpointsSyntax_from (S i) rest disks
        end)
  end.

(** Check if endpoints are in expected syntax by valid scheme/path across
    all platforms. *)
Definition checkEndpointsSyntax (eps : list URL) (disks : list string)
  : ctl (option error) :=
  checkEndpointsSyntax_from 0 eps disks.

(** The number of endpoints whose [Host] is the bind address. *)
Definition foundCnt (serverAddr : string) (endpoints : list URL) : Z :=
  List.fold_left
    (fun cnt ep => if String.eqb (Host ep) serverAddr then cnt + 1 else cnt)
    endpoints 0.

(** Make sure all the command line parameters are OK and exit in case of
    invalid parameters. *)
Definition checkServerSyntax (c : Context) : ctl unit :=
  (let serverAddr := address c in
   let '(host, portStr, err) := net_SplitHostPort serverAddr in
   fatalIf (option_map ErrAddr err) "Unable to parse %s." ;;
   let disks := args c in
   match parseStorageEndpoints disks with
   | Failed e => Fatal e "Unable to parse storage endpoints %s"
   | Ok endpoints =>
       err <- checkEndpointsSyntax endpoints disks ;;
       fatalIf err "Invalid endpoints found %s" ;;
       fatalIf (checkDuplicateEndpoints endpoints) "Duplicate entries in %s" ;;
       (if 1 <? Z.of_nat (List.length endpoints) then
          fatalIf (checkSufficientDisks endpoints) "Invalid number of disks supplied."
        else
          match endpoints with
          | [] => Panic
          | e0 :: _ =>
              if negb (String.eqb (Host e0) "") && negb (String.eqb (Scheme e0) "")
              then Fatal errInvalidArgument "%s, FS setup expects a filesystem path"
              else Return tt
          end) ;;
       if negb (isDistributedSetup endpoints) then Return tt
       else
         (if negb (String.eqb host "") then
            (if String.eqb portStr "" then
               Fatal errInvalidArgument
                     "Port missing, Host:Port should be specified for --address"
             else Return tt) ;;
            let cnt := foundCnt serverAddr endpoints in
            (if cnt =? 0 then Fatal errInvalidArgument "%s is not available in %s"
             else Return tt) ;;
            (if 1 <? cnt then Fatal errInvalidArgument "%s matches % entries in %s"
             else Return tt)
          else Return tt) ;;
         forEach (fun ep =>
                    if String.eqb (Scheme ep) "https" && negb (globalIsSSL g)
                    then Fatal errInvalidArgument
                               "Certificates not provided for secure configuration"
                    else Return tt)
                 endpoints
   end)%ctl.

(** Checks if any of the endpoints supplied is local to this server. *)
Fixpoint isAnyEndpointLocal (eps : list URL) : bool :=
  match eps with
  | [] => false
  | ep :: rest => if isLocalStorage g ep then true else isAnyEndpointLocal rest
  end.

End Server.

(** ** Start-up: [getHostPort], [initServerConfig], [serverMain] *)

(** The steps of [serverMain] that act on the world outside the process
    state modelled here, in the order they are taken. *)
Inductive event : Type :=
| EvShowCommandHelp
| EvMinioInit
| EvCheckUpdate
| EvCreateCertsPath
| EvLoadRootCAs
| EvSaveServerConfig
| EvSetMaxOpenFiles
| EvSetMaxMemory
| EvInitStorageDisks (endpoints : list URL)
| EvHouseKeeping
| EvConfigureServerHandler
| EvInitDsyncNodes (endpoints : list URL)
| EvInitNSLock (isDist : bool)
| EvNewServerMux (serverAddr : string)
| EvGetLocalAddress
| EvFinalizeAPIEndpoints
| EvInitGlobalS3Peers (endpoints : list URL)
| EvInitGlobalAdminPeers (endpoints : list URL)
| EvGoListenAndServe (tls : bool)
| EvWaitForFormatDisks (firstDisk : bool)
| EvNewObjectLayer
| EvSetGlobalObjectAPI
| EvPrintStartupMessage
| EvWaitServiceDone.

(** A run: the events so far and how the run goes on. *)
Definition proc (A : Type) : Type := (list event * ctl A)%type.

Definition pbind {A B : Type} (m : proc A) (k : A -> proc B) : proc B :=
  match m with
  | (evs, Return a) => let '(evs', r) := k a in ((evs ++ evs')%list, r)
  | (evs, Fatal e t) => (evs, Fatal e t)
  | (evs, Exit n) => (evs, Exit n)
  | (evs, Panic) => (evs, Panic)
  end.

Definition lift {A : Type} (m : ctl A) : proc A := ([], m).
Definition emit (e : event) : proc unit := ([e], Return tt).

(** A call to a collaborator that returns [(T, error)], followed by
    [fatalIf] on its error. *)
Definition call {A : Type} (e : event) (r : result A) (template : string) : proc A :=
  match r with
  | Ok a => ([e], Return a)
  | Failed err => ([e], Fatal err template)
  end.

(** The same for a collaborator that returns only an [error]. *)
Definition call_ (e : event) (r : option error) (template : string) : proc unit :=
  ([e], fatalIf r template).

Declare Scope proc_scope.
Delimit Scope proc_scope with proc.
Notation "x <- m ;; k" := (pbind m (fun x => k))
  (at level 100, m at next level, right associativity) : proc_scope.
Notation "m ;; k" := (pbind m (fun _ => k))
  (at level 100, right associativity) : proc_scope.

Record serverCmdConfig (StorageAPI : Type) := mkServerCmdConfig {
  serverAddr : string;
  endpoints : list URL;
  storageDisks : list StorageAPI
}.

(** The double quote, for message templates that hold one. *)
Definition dquote : string := String (ascii_of_nat 34) EmptyString.

Section Startup.

Variable url_Parse : string -> result URL.
Variable URL_String : URL -> string.
Variable GOOS : string.
Variable minErasureBlocks maxErasureBlocks : Z.
Variable isLocalStorage : Globals -> URL -> bool.
Variable checkDuplicateEndpoints : list URL -> option error.
Variable error_text : error -> string.

(** [sort.Sort(byHostPath(endpoints))]: [byHostPath] is declared elsewhere. *)
Variable sort_byHostPath : list URL -> list URL.

(** Collaborators of the start-up sequence, declared elsewhere. *)
Variables StorageAPI Handler APIEndpoints ObjectLayer : Type.
Variable checkPortAvailability : string -> option error.
Variable createCertsPath : option error.
Variable envCredentials : bool.
Variable serverConfig_Save : option error.
Variable initStorageDisks : list URL -> result (list StorageAPI).
Variable houseKeeping : list StorageAPI -> option error.
Variable configureServerHandler : serverCmdConfig StorageAPI -> result Handler.
Variable initDsyncNodes : list URL -> option error.
Variable finalizeAPIEndpoints : string -> result APIEndpoints.
Variable waitForFormatDisks :
  bool -> list URL -> list StorageAPI -> result (list StorageAPI).
Variable newObjectLayer : list StorageAPI -> result ObjectLayer.

(** Convert an input address of form host:port into, host and port, returns
    if any. *)
Definition getHostPort (address : string) : string * string * option error :=
  let '(host, port, err) := net_SplitHostPort address in
  match err with
  | Some e => ("", "", Some (ErrAddr e))
  | None =>
      if String.eqb port "0" || String.eqb port "" then ("", "", Some errEmptyPort)
      else
        match GoStrconv.Atoi port with
        | Failed e => ("", "", Some e)
        | Ok _ =>
            match checkPortAvailability port with
            | Some e => ("", "", Some e)
            | None => (host, port, None)
            end
        end
  end.

(** initServerConfig initialize server config. *)
Definition initServerConfig : proc unit :=
  (call_ EvCreateCertsPath createCertsPath
         ("Unable to create " ++ dquote ++ "certs" ++ dquote ++ " directory.") ;;
   emit EvLoadRootCAs ;;
   (if envCredentials
    then call_ EvSaveServerConfig serverConfig_Save
               "Unable to save credentials in the disk."
    else lift (Return tt)) ;;
   emit EvSetMaxOpenFiles ;;
   emit EvSetMaxMemory)%proc.

(** serverMain handler called for 'minio server' command.  [g0] holds the
    process-wide variables as [minioInit] leaves them; a run that returns
    is one that waits on [globalServiceDoneCh]. *)
Definition serverMain (g0 : Globals) (c : Context) : proc unit :=
  (if negb (0 <? Z.of_nat (List.length (args c)))
      || String.eqb (List.hd "" (args c)) "help"
   then emit EvShowCommandHelp ;; lift (Exit 1)
   else
   emit EvMinioInit ;;
   emit EvCheckUpdate ;;
   let serverAddr := address c in
   let '(host, port, err) := getHostPort serverAddr in
   let g := mkGlobals host port (globalIsSSL g0) in
   lift (fatalIf err "Unable to extract host and port %s") ;;
   lift (checkServerSyntax url_Parse URL_String GOOS minErasureBlocks
           maxErasureBlocks isLocalStorage checkDuplicateEndpoints error_text g c) ;;
   endpoints <- lift (match parseStorageEndpoints url_Parse g (args c) with
                      | Failed e => Fatal e "Unable to parse storage endpoints %s"
                      | Ok endpoints => Return endpoints
                      end) ;;
   (if negb (isAnyEndpointLocal isLocalStorage g endpoints)
    then lift (Fatal errInvalidArgument
                 "None of the disks passed as command line args are local to this server.")
    else lift (Return tt)) ;;
   let endpoints := sort_byHostPath endpoints in
   storageDisks <- call (EvInitStorageDisks endpoints) (initStorageDisks endpoints)
                        "Unable to initialize storage disk(s)." ;;
   call_ EvHouseKeeping (houseKeeping storageDisks)
         "Unable to purge temporary files." ;;
   initServerConfig ;;
   firstDisk <- lift (match endpoints with
                      | [] => Panic
                      | e0 :: _ => Return (isLocalStorage g e0)
                      end) ;;
   let globalIsDistXL := isDistributedSetup isLocalStorage g endpoints in
   let srvConfig := mkServerCmdConfig StorageAPI serverAddr endpoints storageDisks in
   handler <- call EvConfigureServerHandler (configureServerHandler srvConfig)
                   "Unable to configure one of server's RPC services." ;;
   (if globalIsDistXL
    then call_ (EvInitDsyncNodes endpoints) (initDsyncNodes endpoints)
               "Unable to initialize distributed locking"
    else lift (Return tt)) ;;
   emit (EvInitNSLock globalIsDistXL) ;;
   emit (EvNewServerMux serverAddr) ;;
   emit EvGetLocalAddress ;;
   apiEndPoints <- call EvFinalizeAPIEndpoints (finalizeAPIEndpoints serverAddr)
                        "Unable to finalize API endpoints for %s" ;;
   emit (EvInitGlobalS3Peers endpoints) ;;
   emit (EvInitGlobalAdminPeers endpoints) ;;
   emit (EvGoListenAndServe (globalIsSSL g)) ;;
   formattedDisks <- call (EvWaitForFormatDisks firstDisk)
                          (waitForFormatDisks firstDisk endpoints storageDisks)
                          "formatting storage disks failed" ;;
   newObject <- call EvNewObjectLayer (newObjectLayer formattedDisks)
                     "intializing object layer failed" ;;
   emit EvSetGlobalObjectAPI ;;
   emit EvPrintStartupMessage ;;
   emit EvWaitServiceDone)%proc.

End Startup.

(** ** Ordering of the endpoints *)

(** Modelled from the spec: [byHostPath] and its [Less] method are declared
    outside this file.  "Endpoints are sorted by a total order on (host,
    path) - host compared first, path second." *)
Definition byHostPath_Less (a b : URL) : bool :=
  GoString.ltb (Host a) (Host b) ||
  (String.eqb (Host a) (Host b) && GoString.ltb (Path a) (Path b)).

(** The key that [byHostPath_Less] compares. *)
Definition hostPath (u : URL) : string * string := (Host u, Path u).

Module GoSort.

Section Sort.

Variable A : Type.
Variable Less : A -> A -> bool.

(** The inner loop of [insertionSort]: the element [x] at index [j] is
    swapped downwards while it is less than the element below it.  The
    sorted part [data[a:j]] is kept reversed, its head is [data[j-1]]. *)
Fixpoint sink (x : A) (below : list A) : list A :=
  match below with
  | [] => [x]
  | y :: rest => if Less x y then y :: sink x rest else x :: below
  end.

(** [insertionSort] of package [sort], the routine [sort.Sort] runs on short
    slices. *)
Definition insertionSort (data : list A) : list A :=
  List.rev (List.fold_left (fun below x => sink x below) data []).

End Sort.

End GoSort.

(** ** Executable stand-ins for the parameters *)

Module Plain.

Definition isLetter (c : ascii) : bool :=
  let n := nat_of_ascii c in
  (((97 <=? n) && (n <=? 122)) || ((65 <=? n) && (n <=? 90)))%nat.

Definition isDigit (c : ascii) : bool :=
  let n := nat_of_ascii c in ((48 <=? n) && (n <=? 57))%nat.

(** The bytes of a plain endpoint token: letters, digits and [. - _ / : \]. *)
Definition plainByte (c : ascii) : bool :=
  isLetter c || isDigit c ||
  List.existsb (Ascii.eqb c) ["."; "-"; "_"; "/"; ":"; "\"]%char.

(** [getscheme] of [net/url], reading [rawurl] from index [i] on. *)
Fixpoint getscheme_from (i : nat) (s rawurl : string) : result (string * string) :=
  match s with
  | EmptyString => Ok ("", rawurl)
  | String c rest =>
      if isLetter c then getscheme_from (S i) rest rawurl
      else if isDigit c || List.existsb (Ascii.eqb c) ["+"; "-"; "."]%char then
        if (i =? 0)%nat then Ok ("", rawurl) else getscheme_from (S i) rest rawurl
      else if Ascii.eqb c ":" then
        if (i =? 0)%nat then Failed (Errorf "missing protocol scheme")
        else Ok (GoString.slice rawurl 0 (Z.of_nat i),
                 GoString.sliceFrom rawurl (Z.of_nat i + 1))
      else Ok ("", rawurl)
  end.

Definition getscheme (rawurl : string) : result (string * string) :=
  getscheme_from 0 rawurl rawurl.

(** [url.Parse] on plain tokens [[scheme:][//host[:port]]path]: the scheme
    is split off and lower-cased, a rootless rest after a scheme is opaque,
    an authority runs up to the next slash.  Tokens with other bytes
    (escapes, user information, query, fragment, IP literals) are outside
    this stand-in and reported as errors. *)
Definition url_Parse (rawurl : string) : result URL :=
  if negb (List.forallb plainByte (list_ascii_of_string rawurl))
  then Failed (ErrParse rawurl "outside the plain tokens")
  else
    match getscheme rawurl with
    | Failed (Errorf why) => Failed (ErrParse rawurl why)
    | Failed e => Failed e
    | Ok (scheme, rest) =>
        let scheme := GoString.ToLower scheme in
        if negb (GoString.HasPrefix rest "/") then
          if negb (String.eqb scheme "") then Ok (mkURL scheme rest "" "" "" "")
          else
            let i := GoString.IndexByte rest "/" in
            let segment := if i <? 0 then rest else GoString.slice rest 0 i in
            if 0 <=? GoString.IndexByte segment ":"
            then Failed (ErrParse rawurl
                           "first path segment in URL cannot contain colon")
            else Ok (mkURL scheme "" "" rest "" "")
        else if (negb (String.eqb scheme "") || negb (GoString.HasPrefix rest "///"))
                && GoString.HasPrefix rest "//" then
          let rest2 := GoString.sliceFrom rest 2 in
          let i := GoString.IndexByte rest2 "/" in
          let '(authority, rest') :=
            if i <? 0 then (rest2, "")
            else (GoString.slice rest2 0 i, GoString.sliceFrom rest2 i) in
          Ok (mkURL scheme "" authority rest' "" "")
        else Ok (mkURL scheme "" "" rest "" "")
    end.

(** The [String] method of [url.URL] for URLs whose parts need no escaping. *)
Definition URL_String (u : URL) : string :=
  (if String.eqb (Scheme u) "" then "" else Scheme u ++ ":") ++
  (if negb (String.eqb (Opaque u) "") then Opaque u
   else
     (if negb (String.eqb (Scheme u) "") || negb (String.eqb (Host u) "")
      then "//" ++ Host u else "") ++
     (if negb (String.eqb (Path u) "") && negb (GoString.HasPrefix (Path u) "/")
         && negb (String.eqb (Host u) "")
      then "/" else "") ++
     Path u) ++
  (if String.eqb (RawQuery u) "" then "" else "?" ++ RawQuery u) ++
  (if String.eqb (Fragment u) "" then "" else "#" ++ Fragment u).

(** Modelled from the spec: [isLocalStorage] is declared outside this file.
    "Determine locality by comparing its host against the set of addresses
    bound to the current process's network interfaces; empty host is always
    local."  [localHosts] are the names and addresses that resolve to this
    machine. *)
Definition isLocalStorage (localHosts : list string) (g : Globals) (ep : URL) : bool :=
  if String.eqb (Host ep) "" then true
  else
    let '(host, _, err) := net_SplitHostPort (Host ep) in
    match err with
    | Some _ => false
    | None => List.existsb (String.eqb host) localHosts
    end.

Definition URL_eqb (a b : URL) : bool :=
  String.eqb (Scheme a) (Scheme b) && String.eqb (Opaque a) (Opaque b) &&
  String.eqb (Host a) (Host b) && String.eqb (Path a) (Path b) &&
  String.eqb (RawQuery a) (RawQuery b) && String.eqb (Fragment a) (Fragment b).

Fixpoint hasDuplicate (l : list URL) : bool :=
  match l with
  | [] => false
  | u :: rest => List.existsb (URL_eqb u) rest || hasDuplicate rest
  end.

(** Modelled from the spec: [checkDuplicateEndpoints] is declared outside
    this file.  "Duplicate endpoints anywhere in the set are a fatal error
    regardless of N." *)
Definition checkDuplicateEndpoints (l : list URL) : option error :=
  if hasDuplicate l then Some (Errorf "duplicate endpoints") else None.

(** The texts of the errors defined outside this file are not modelled. *)
Definition error_text (e : error) : string := "".

(** The bounds named in [checkSufficientDisks]: "only combination of 4, 6,
    8, 10, 12, 14, 16 are supported". *)
Definition minErasureBlocks : Z := 4.
Definition maxErasureBlocks : Z := 16.

End Plain.

(** ** Concrete runs *)

Module Example.

(** The checks on linux with the stand-ins of [Plain]; [localHosts] are the
    names of this machine. *)
Definition parse (g : Globals) (eps : list string) : result (list URL) :=
  parseStorageEndpoints Plain.url_Parse g eps.

Definition serverSyntax (localHosts : list string) (g : Globals) (c : Context)
  : ctl unit :=
  checkServerSyntax Plain.url_Parse Plain.URL_String "linux"
    Plain.minErasureBlocks Plain.maxErasureBlocks
    (Plain.isLocalStorage localHosts) Plain.checkDuplicateEndpoints
    Plain.error_text g c.

Definition sortEndpoints (l : list URL) : list URL :=
  GoSort.insertionSort URL byHostPath_Less l.

(** [serverMain] with collaborators that always succeed. *)
Definition main (localHosts : list string) (g0 : Globals) (c : Context) : proc unit :=
  serverMain Plain.url_Parse Plain.URL_String "linux"
    Plain.minErasureBlocks Plain.maxErasureBlocks
    (Plain.isLocalStorage localHosts) Plain.checkDuplicateEndpoints
    Plain.error_text sortEndpoints
    unit unit unit unit
    (fun _ => None) None false None
    (fun eps => Ok (List.map (fun _ => tt) eps))
    (fun _ => None) (fun _ => Ok tt) (fun _ => None) (fun _ => Ok tt)
    (fun _ _ disks => Ok disks) (fun _ => Ok tt)
    g0 c.

(** The process-wide variables under the default [--address :9000]. *)
Definition defaultGlobals : Globals := mkGlobals "" "9000" false.

(** [minio server --address 192.168.1.101:9000 /home/shared], the second
    example of the command's help. *)
Definition boundGlobals : Globals := mkGlobals "192.168.1.101" "9000" false.
Definition boundLocal : Context := mkContext "192.168.1.101:9000" ["/home/shared"].

(** Four [https] endpoints on this machine, no certificates loaded. *)
Definition httpsLocal : Context :=
  mkContext ":9000"
    ["https://localhost/d1"; "https://localhost/d2";
     "https://localhost/d3"; "https://localhost/d4"].

(** Four [https] endpoints on four nodes. *)
Definition httpsNodes : Context :=
  mkContext ":9000"
    ["https://node1/d1"; "https://node2/d1"; "https://node3/d1"; "https://node4/d1"].

(** One process per disk: four nodes, this one bound to [node1:9000]. *)
Definition node1Globals : Globals := mkGlobals "node1" "9000" false.
Definition perDisk : Context :=
  mkContext "node1:9000"
    ["http://node1:9000/d1"; "http://node2:9000/d1";
     "http://node3:9000/d1"; "http://node4:9000/d1"].

(** The same two disks named once with [http] and once with [https], in two
    orders of the command line; certificates are loaded. *)
Definition sslGlobals : Globals := mkGlobals "" "9000" true.
Definition mixedA : Context :=
  mkContext ":9000"
    ["http://node1/d1"; "https://node1/d1"; "http://node2/d1"; "https://node2/d1"].
Definition mixedB : Context :=
  mkContext ":9000"
    ["https://node1/d1"; "http://node1/d1"; "https://node2/d1"; "http://node2/d1"].

Definition disk (path : string) : URL := mkURL "" "" "" path "" "".
Definition threeDisks : list URL := [disk "/d1"; disk "/d2"; disk "/d3"].
Definition fiveDisks : list URL :=
  [disk "/d1"; disk "/d2"; disk "/d3"; disk "/d4"; disk "/d5"].
Definition seventeenDisks : list URL := List.repeat (disk "/d") 17.

(** Two endpoints on nodes that are not this machine. *)
Definition remotePair : Context :=
  mkContext ":9000" ["http://10.0.0.1/d1"; "http://10.0.0.2/d2"].

(** Four endpoints on nodes that are not this machine. *)
Definition remoteFour : Context :=
  mkContext ":9000"
    ["http://node1/d1"; "http://node2/d1"; "http://node3/d1"; "http://node4/d1"].

(** A single endpoint with a host and a scheme, one with a host only, one
    with a scheme only. *)
Definition singleNetworked : Context := mkContext ":9000" ["http://node1/export"].
Definition singleHostOnly : Context := mkContext ":9000" ["//node1/export"].
Definition singleSchemeOnly : Context := mkContext ":9000" ["https:///export"].

(** A single local disk, an empty token, no argument at all. *)
Definition localDisk : Context := mkContext ":9000" ["/data"].
Definition emptyToken : Context := mkContext ":9000" [""].
Definition noArguments : Context := mkContext ":9000" [].

(** A bind address with a host and an empty port, before four nodes. *)
Definition halfGlobals : Globals := mkGlobals "node1" "" false.
Definition halfAddress : Context :=
  mkContext "node1:"
    ["http://node1:9000/d1"; "http://node2:9000/d1";
     "http://node3:9000/d1"; "http://node4:9000/d1"].
Definition fourNodes : list URL :=
  [mkURL "http" "" "node1:9000" "/d1" "" ""; mkURL "http" "" "node2:9000" "/d1" "" "";
   mkURL "http" "" "node3:9000" "/d1" "" ""; mkURL "http" "" "node4:9000" "/d1" "" ""].

(** The same disk named twice. *)
Definition twiceTheSame : Context := mkContext ":9000" ["/data"; "/data"].

(** On windows: the parent of the root of drive [c]. *)
Definition driveParent : Context := mkContext ":9000" ["c:/.."].

(** Every port is free. *)
Definition portFree (port : string) : option error := None.

End Example.

(** ** Vocabulary of the properties *)

(** The two errors of [parseStorageEndpoints] about ports. *)
Definition errPortConfigurable (host : string) : error :=
  Errorf ("Invalid Argument " ++ host ++ ", port configurable using --address :<port>").

Definition errPortMandatory (host : string) : error :=
  Errorf ("Invalid Argument " ++ host ++
          ", port mandatory when --address <host>:<port> is used").

(** The error of [net.SplitHostPort] is nil or one that
    [parseStorageEndpoints] ignores. *)
Definition missingPortIgnored (err : option AddrError) : Prop :=
  match err with
  | None => True
  | Some e => GoString.Contains (AddrError_Error e) "missing port in address" = true
  end.

(** [host] ends in a colon and [port]. *)
Definition carriesPort (host port : string) : Prop :=
  exists name : string, host = name ++ ":" ++ port.

(** The test of [checkServerSyntax] on the number of endpoints: the check
    of an erasure set for more than one endpoint, the test of an FS setup
    otherwise (lines 262-271). *)
Definition sizeCheck (minErasureBlocks maxErasureBlocks : Z)
    (endpoints : list URL) : ctl unit :=
  if 1 <? Z.of_nat (List.length endpoints) then
    fatalIf (checkSufficientDisks minErasureBlocks maxErasureBlocks endpoints)
            "Invalid number of disks supplied."
  else
    match endpoints with
    | [] => Panic
    | e0 :: _ =>
        if negb (String.eqb (Host e0) "") && negb (String.eqb (Scheme e0) "")
        then Fatal errInvalidArgument "%s, FS setup expects a filesystem path"
        else Return tt
    end.

(** The rest of [checkServerSyntax], from the test of a distributed setup
    on (lines 273-306). *)
Definition distributedChecks (isLocalStorage : Globals -> URL -> bool) (g : Globals)
    (serverAddr host portStr : string) (endpoints : list URL) : ctl unit :=
  (if negb (isDistributedSetup isLocalStorage g endpoints) then Return tt
   else
     (if negb (String.eqb host "") then
        (if String.eqb portStr "" then
           Fatal errInvalidArgument
                 "Port missing, Host:Port should be specified for --address"
         else Return tt) ;;
        let cnt := foundCnt serverAddr endpoints in
        (if cnt =? 0 then Fatal errInvalidArgument "%s is not available in %s"
         else Return tt) ;;
        (if 1 <? cnt then Fatal errInvalidArgument "%s matches % entries in %s"
         else Return tt)
      else Return tt) ;;
     forEach (fun ep =>
                if String.eqb (Scheme ep) "https" && negb (globalIsSSL g)
                then Fatal errInvalidArgument
                           "Certificates not provided for secure configuration"
                else Return tt)
             endpoints)%ctl.

(** The checks of [checkServerSyntax] before the test of a distributed setup
    all pass: the bind address splits into [host] and [portStr], the
    arguments parse to [endpoints], which have a valid syntax, no duplicates
    and an accepted number. *)
Definition passesLocalChecks
    (url_Parse : string -> result URL) (URL_String : URL -> string) (GOOS : string)
    (minErasureBlocks maxErasureBlocks : Z)
    (checkDuplicateEndpoints : list URL -> option error)
    (error_text : error -> string) (g : Globals)
    (c : Context) (host portStr : string) (endpoints : list URL) : Prop :=
  net_SplitHostPort (address c) = (host, portStr, None) /\
  parseStorageEndpoints url_Parse g (args c) = Ok endpoints /\
  checkEndpointsSyntax URL_String GOOS error_text endpoints (args c) = Return None /\
  checkDuplicateEndpoints endpoints = None /\
  sizeCheck minErasureBlocks maxErasureBlocks endpoints = Return tt.

(** An endpoint with the scheme [https]. *)
Definition hasHTTPS (endpoints : list URL) : bool :=
  List.existsb (fun ep => String.eqb (Scheme ep) "https") endpoints.

(** A scheme of one alphabetic letter. *)
Definition singleLetter (s : string) : bool :=
  match s with
  | String c EmptyString => Plain.isLetter c
  | _ => false
  end.

(** The schemes of a valid endpoint: empty, [http], [https] or, on the
    platform of drive letters, one alphabetic letter. *)
Definition schemeAccepted (GOOS s : string) : bool :=
  String.eqb s "" || String.eqb s "http" || String.eqb s "https" ||
  (String.eqb GOOS "windows" && singleLetter s).

(** The path that [checkEndpointURL] tests: the cleaned [Path] under the
    schemes of all platforms; under a drive letter what follows the first
    colon of the cleaned text of the URL, if there is a colon. *)
Definition normalizedPath (URL_String : URL -> string) (u : URL) : option string :=
  if String.eqb (Scheme u) "" || String.eqb (Scheme u) "http"
     || String.eqb (Scheme u) "https"
  then Some (GoPath.Clean (Path u))
  else List.nth_error (GoString.SplitN2 (GoPath.Clean (URL_String u)) ":") 1.

(** Empty, ".", "/" or a bare backslash. *)
Definition badPath (p : string) : Prop :=
  p = "" \/ p = "." \/ p = "/" \/ p = "\".

(** [byHostPath_Less] on the keys. *)
Definition keyLess (k1 k2 : string * string) : bool :=
  GoString.ltb (fst k1) (fst k2) ||
  (String.eqb (fst k1) (fst k2) && GoString.ltb (snd k1) (snd k2)).

(** A slice is in order when no element is [Less] than the one before it:
    what [sort.Sort] establishes. *)
Definition inOrder (l : list URL) : Prop :=
  Sorted (fun a b => byHostPath_Less b a = false) l.

(** The events that initialize the storage handles or start the listener. *)
Definition startsStorageOrListener (e : event) : bool :=
  match e with
  | EvInitStorageDisks _ | EvGoListenAndServe _ => true
  | _ => false
  end.

(** The steps of a complete start-up, in the order [serverMain] takes
    them: [endpoints] are the sorted endpoints, [isDist] tells a distributed
    setup, [firstDisk] whether the first endpoint is local, [tls] whether
    certificates are loaded. *)
Definition bootSequence (serverAddr : string) (endpoints : list URL)
    (envCredentials isDist firstDisk tls : bool) : list event :=
  ([EvMinioInit; EvCheckUpdate; EvInitStorageDisks endpoints; EvHouseKeeping;
    EvCreateCertsPath; EvLoadRootCAs] ++
   (if envCredentials then [EvSaveServerConfig] else []) ++
   [EvSetMaxOpenFiles; EvSetMaxMemory; EvConfigureServerHandler] ++
   (if isDist then [EvInitDsyncNodes endpoints] else []) ++
   [EvInitNSLock isDist; EvNewServerMux serverAddr; EvGetLocalAddress;
    EvFinalizeAPIEndpoints; EvInitGlobalS3Peers endpoints;
    EvInitGlobalAdminPeers endpoints; EvGoListenAndServe tls;
    EvWaitForFormatDisks firstDisk; EvNewObjectLayer; EvSetGlobalObjectAPI;
    EvPrintStartupMessage; EvWaitServiceDone])%list.

(** The usage test of [serverMain]: no argument, or "help" as the first. *)
Definition asksForHelp (c : Context) : Prop :=
  args c = [] \/ List.hd "" (args c) = "help".

(** The byte [c] does not occur in [s]. *)
Definition lacks (s : string) (c : ascii) : Prop := GoString.IndexByte s c = -1.

(** A host name or address without colon, percent sign or bracket, and a
    port without colon or bracket. *)
Definition plainHost (h : string) : Prop :=
  lacks h ":" /\ lacks h "%" /\ lacks h "[" /\ lacks h "]".

Definition plainPort (p : string) : Prop :=
  lacks p ":" /\ lacks p "[" /\ lacks p "]".

(** ** Properties of [parseStorageEndpoints] *)

Lemma append_inj_l (s a b : string) : s ++ a = s ++ b -> a = b.
Proof.
  induction s as [|c s IH]; simpl; intros H.
  - exact H.
  - injection H as H. auto.
Qed.

Lemma errPort_distinct (h : string) : errPortConfigurable h <> errPortMandatory h.
Proof.
  unfold errPortConfigurable, errPortMandatory. intros H.
  injection H as H. apply append_inj_l in H.
  discriminate H.
Qed.

(** On an error [net.SplitHostPort] returns empty host and port. *)
Lemma net_SplitHostPort_error (hostport h port : string) (e : AddrError) :
  net_SplitHostPort hostport = (h, port, Some e) -> h = "" /\ port = "".
Proof.
  unfold net_SplitHostPort, addrErr. cbv zeta.
  repeat match goal with
         | |- context [match ?x with _ => _ end] => is_var x; destruct x
         | |- context [String.get ?n ?s] => destruct (String.get n s)
         | |- context [if ?b then _ else _] =>
             lazymatch b with
             | context [match _ with _ => _ end] => fail
             | _ => destruct b
             end
         end;
    intros H; inversion H; auto.
Qed.

Section ParseFacts.

Variable url_Parse : string -> result URL.
Variable g : Globals.

Local Abbreviation parseStorageEndpoint := (parseStorageEndpoint url_Parse g).
Local Abbreviation parseStorageEndpoints_from := (parseStorageEndpoints_from url_Parse g).
Local Abbreviation parseStorageEndpoints := (parseStorageEndpoints url_Parse g).

(** A token that is rejected makes the whole list rejected. *)
Lemma parseStorageEndpoints_from_rejects (eps : list string) :
  forall (acc : list URL) (ep : string) (e : error),
    In ep eps -> parseStorageEndpoint ep = Failed e ->
    exists e', parseStorageEndpoints_from acc eps = Failed e'.
Proof.
  induction eps as [|x eps IH]; intros acc ep e Hin Hfail.
  - destruct Hin.
  - simpl. destruct (parseStorageEndpoint x) as [v|e0] eqn:Hx.
    + destruct Hin as [->|Hin].
      * congruence.
      * eapply IH; eauto.
    + eauto.
Qed.

(** The first rejected token decides the error. *)
Lemma parseStorageEndpoints_from_first (pre : list string) :
  forall (acc : list URL) (ep : string) (post : list string) (e : error),
    (forall x, In x pre -> exists v, parseStorageEndpoint x = Ok v) ->
    parseStorageEndpoint ep = Failed e ->
    parseStorageEndpoints_from acc (pre ++ ep :: post) = Failed e.
Proof.
  induction pre as [|x pre IH]; intros acc ep post e Hpre Hfail; simpl.
  - now rewrite Hfail.
  - destruct (Hpre x (or_introl eq_refl)) as [v Hv]. rewrite Hv.
    apply IH; auto. intros y Hy. apply Hpre. now right.
Qed.

(** On success the endpoints are those of the tokens, in order. *)
Lemma parseStorageEndpoints_from_ok (eps : list string) :
  forall (acc endpoints : list URL),
    parseStorageEndpoints_from acc eps = Ok endpoints ->
    exists parsed : list URL,
      endpoints = (acc ++ parsed)%list /\
      Forall2 (fun ep u => parseStorageEndpoint ep = Ok u) eps parsed.
Proof.
  induction eps as [|x eps IH]; intros acc endpoints H; simpl in H.
  - injection H as <-. exists []. split; [now rewrite app_nil_r | constructor].
  - destruct (parseStorageEndpoint x) as [v|e0] eqn:Hx; [|discriminate].
    destruct (IH _ _ H) as (parsed & -> & HF).
    exists (v :: parsed). split.
    + now rewrite <- app_assoc.
    + now constructor.
Qed.

Lemma parseStorageEndpoints_ok (eps : list string) (endpoints : list URL) :
  parseStorageEndpoints eps = Ok endpoints ->
  Forall2 (fun ep u => parseStorageEndpoint ep = Ok u) eps endpoints.
Proof.
  intros H. destruct (parseStorageEndpoints_from_ok _ _ _ H) as (parsed & -> & HF).
  exact HF.
Qed.

Lemma parseStorageEndpoints_length (eps : list string) (endpoints : list URL) :
  parseStorageEndpoints eps = Ok endpoints ->
  List.length endpoints = List.length eps.
Proof.
  intros H. apply parseStorageEndpoints_ok in H.
  symmetry. eapply Forall2_length; eauto.
Qed.

(** What the loop body does with a token whose URL has a host. *)
Lemma parseStorageEndpoint_host (ep : string) (u : URL) (h port : string)
    (err : option AddrError) :
  ep <> "" -> url_Parse ep = Ok u -> Host u <> "" ->
  net_SplitHostPort (Host u) = (h, port, err) ->
  parseStorageEndpoint ep =
    match err with
    | Some e =>
        if GoString.Contains (AddrError_Error e) "missing port in address"
        then if String.eqb (globalMinioHost g) ""
             then Ok (URL_withHost u (net_JoinHostPort (Host u) (globalMinioPort g)))
             else Failed (errPortMandatory (Host u))
        else Failed (ErrAddr e)
    | None =>
        if String.eqb (globalMinioHost g) "" then
          if String.eqb port "" 
          then Ok (URL_withHost u (net_JoinHostPort (Host u) (globalMinioPort g)))
          else Failed (errPortConfigurable (Host u))
        else if String.eqb port "" then Failed (errPortMandatory (Host u)) else Ok u
    end.
Proof.
  intros Hne Hparse Hhost Hsplit.
  unfold parseStorageEndpoint.
  apply String.eqb_neq in Hne. apply String.eqb_neq in Hhost.
  rewrite Hne, Hparse, Hhost, Hsplit. simpl.
  destruct err as [e|].
  - destruct (net_SplitHostPort_error _ _ _ _ Hsplit) as [_ ->].
    destruct (GoString.Contains _ _); simpl; [|reflexivity].
    destruct (String.eqb (globalMinioHost g) ""); reflexivity.
  - destruct (String.eqb (globalMinioHost g) ""), (String.eqb port ""); reflexivity.
Qed.

(** C1. For a token whose URL has a non-empty host: with no bind host
    ([globalMinioHost] empty) a port on the endpoint makes the token, and so
    the whole list, rejected with the error "port configurable using
    --address"; with a bind host fixed a missing port makes it rejected
    with the error "port mandatory when --address is used"; the first
    rejected token decides the error of the list; and each of the two
    errors arises only under its own rule, so the rules exclude each
    other. *)
Theorem parseStorageEndpoints_port_rules
    (eps : list string) (ep : string) (u : URL) (h port : string)
    (err : option AddrError) :
  In ep eps -> ep <> "" -> url_Parse ep = Ok u -> Host u <> "" ->
  net_SplitHostPort (Host u) = (h, port, err) ->
  (globalMinioHost g = "" -> port <> "" ->
     parseStorageEndpoint ep = Failed (errPortConfigurable (Host u)) /\
     exists e, parseStorageEndpoints eps = Failed e)
  /\ (globalMinioHost g <> "" -> port = "" ->
       (exists e, parseStorageEndpoints eps = Failed e) /\
       (missingPortIgnored err ->
        parseStorageEndpoint ep = Failed (errPortMandatory (Host u))))
  /\ (forall pre post e,
        eps = (pre ++ ep :: post)%list ->
        (forall x, In x pre -> exists v, parseStorageEndpoint x = Ok v) ->
        parseStorageEndpoint ep = Failed e ->
        parseStorageEndpoints eps = Failed e)
  /\ (parseStorageEndpoint ep = Failed (errPortConfigurable (Host u)) ->
      globalMinioHost g = "" /\ port <> "")
  /\ (parseStorageEndpoint ep = Failed (errPortMandatory (Host u)) ->
      globalMinioHost g <> "" /\ port = "").
Proof.
  intros Hin Hne Hparse Hhost Hsplit.
  pose proof (parseStorageEndpoint_host ep u h port err Hne Hparse Hhost Hsplit) as Hbody.
  assert (Herr : forall e, err = Some e -> port = "").
  { intros e ->. now destruct (net_SplitHostPort_error _ _ _ _ Hsplit). }
  assert (Hrule1 : globalMinioHost g = "" -> port <> "" ->
                   parseStorageEndpoint ep = Failed (errPortConfigurable (Host u))).
  { intros Hg Hport. rewrite Hbody. destruct err as [e|].
    - now elim Hport; apply (Herr e).
    - apply String.eqb_eq in Hg. apply String.eqb_neq in Hport. now rewrite Hg, Hport. }
  assert (Hrule2 : globalMinioHost g <> "" -> port = "" ->
                   exists e, parseStorageEndpoint ep = Failed e /\
                             (missingPortIgnored err -> e = errPortMandatory (Host u))).
  { intros Hg Hport. rewrite Hbody. apply String.eqb_neq in Hg. subst port.
    destruct err as [e|]; simpl.
    - destruct (GoString.Contains _ _); rewrite ?Hg; eauto.
      eexists. split; [reflexivity|]. discriminate.
    - rewrite Hg. simpl. eauto. }
  split; [|split; [|split; [|split]]].
  - intros Hg Hport. split; [auto|].
    eapply parseStorageEndpoints_from_rejects; eauto.
  - intros Hg Hport. destruct (Hrule2 Hg Hport) as (e & He & Hmiss). split.
    + eapply parseStorageEndpoints_from_rejects; eauto.
    + intros Hm. rewrite He, (Hmiss Hm). reflexivity.
  - intros pre post e -> Hpre Hfail.
    now apply parseStorageEndpoints_from_first.
  - (* the first error only under the first rule *)
    rewrite Hbody. pose proof (errPort_distinct (Host u)) as Hd.
    destruct err as [e|].
    + destruct (GoString.Contains _ _), (String.eqb (globalMinioHost g) "");
        intros H; first [congruence | discriminate H].
    + destruct (String.eqb_spec (globalMinioHost g) ""), (String.eqb_spec port "");
        intros H; try congruence; auto.
  - (* the second error only under the second rule *)
    rewrite Hbody. pose proof (errPort_distinct (Host u)) as Hd.
    destruct err as [e|].
    + specialize (Herr e eq_refl).
      destruct (GoString.Contains _ _), (String.eqb_spec (globalMinioHost g) "");
        intros H; first [congruence | discriminate H | auto].
    + destruct (String.eqb_spec (globalMinioHost g) ""), (String.eqb_spec port "");
        intros H; try congruence; auto.
Qed.

End ParseFacts.

Lemma string_app_assoc (a b c : string) : (a ++ b) ++ c = a ++ (b ++ c).
Proof.
  induction a as [|x a IH]; simpl; [reflexivity | now rewrite IH].
Qed.

Lemma net_JoinHostPort_carriesPort (host port : string) :
  carriesPort (net_JoinHostPort host port) port.
Proof.
  unfold carriesPort, net_JoinHostPort.
  destruct (_ || _).
  - exists ("[" ++ host ++ "]"). rewrite !string_app_assoc. reflexivity.
  - exists host. reflexivity.
Qed.

Lemma Forall2_In_right {A B : Type} (R : A -> B -> Prop) (l : list A) (l' : list B) :
  Forall2 R l l' -> forall y, In y l' -> exists x, In x l /\ R x y.
Proof.
  induction 1 as [|x y l l' HR _ IH]; intros z Hz.
  - destruct Hz.
  - destruct Hz as [<-|Hz].
    + exists x. split; [now left | assumption].
    + destruct (IH z Hz) as (x' & Hin & Hx'). exists x'. split; [now right | assumption].
Qed.

Section JoinFacts.

Variable url_Parse : string -> result URL.
Variable g : Globals.

(** C9. When [parseStorageEndpoints] succeeds with no bind host fixed, every
    endpoint returned with a non-empty host comes from a token whose URL had
    a host, and its host is that host joined with [globalMinioPort] by
    [net.JoinHostPort]: it ends in a colon and the port. *)
Theorem parseStorageEndpoints_joins_port (eps : list string) (endpoints : list URL) :
  globalMinioHost g = "" ->
  parseStorageEndpoints url_Parse g eps = Ok endpoints ->
  forall u : URL, In u endpoints -> Host u <> "" ->
    exists (ep : string) (u0 : URL),
      In ep eps /\ url_Parse ep = Ok u0 /\ Host u0 <> "" /\
      u = URL_withHost u0 (net_JoinHostPort (Host u0) (globalMinioPort g)) /\
      carriesPort (Host u) (globalMinioPort g).
Proof.
  intros Hg Hok u Hin Hhost.
  apply parseStorageEndpoints_ok in Hok.
  destruct (Forall2_In_right _ _ _ Hok u Hin) as (ep & Hep & Hbody).
  exists ep. unfold parseStorageEndpoint in Hbody.
  destruct (String.eqb ep ""); [discriminate|].
  destruct (url_Parse ep) as [u0|e0]; [|discriminate].
  exists u0. split; [assumption|]. split; [reflexivity|].
  destruct (String.eqb (Host u0) "") eqn:Hh0; simpl in Hbody.
  - injection Hbody as <-. apply String.eqb_eq in Hh0. contradiction.
  - apply String.eqb_neq in Hh0. split; [assumption|].
    destruct (net_SplitHostPort (Host u0)) as [[h port] err].
    destruct (match err with
              | Some e => if negb (GoString.Contains (AddrError_Error e)
                                     "missing port in address")
                          then Some (ErrAddr e) else None
              | None => None
              end); [discriminate|].
    apply String.eqb_eq in Hg. rewrite Hg in Hbody.
    destruct (negb (String.eqb port "")); [discriminate|].
    injection Hbody as <-. split; [reflexivity|].
    simpl. apply net_JoinHostPort_carriesPort.
Qed.

End JoinFacts.

(** ** The loop of [path.Clean] ends within its fuel *)

Lemma element_rest_length (p : list ascii) :
  (List.length (snd (GoPath.element p)) <= List.length p)%nat.
Proof.
  induction p as [|c rest IH]; simpl; [lia|].
  destruct (Ascii.eqb c GoPath.slash); simpl; [lia|].
  destruct (GoPath.element rest) as [e r]. simpl in *. lia.
Qed.

(** Any fuel from the length of the path on gives the same buffer: the
    loop stops because the path is read to its end. *)
Lemma loop_fuel (n : nat) :
  forall (m : nat) (rooted : bool) (p out : list ascii) (dotdot : Z),
    (List.length p <= n)%nat -> (List.length p <= m)%nat ->
    GoPath.loop n rooted p out dotdot = GoPath.loop m rooted p out dotdot.
Proof.
  induction n as [|n IH]; intros m rooted p out dotdot Hn Hm.
  - destruct p; [|simpl in Hn; lia]. destruct m; reflexivity.
  - destruct p as [|c p1]; [destruct m; reflexivity|].
    destruct m as [|m]; [simpl in Hm; lia|].
    simpl in Hn, Hm.
    cbn [GoPath.loop].
    destruct (Ascii.eqb c GoPath.slash) eqn:Hslash; [apply IH; lia|].
    destruct (Ascii.eqb c GoPath.dot && GoPath.atEndOrSlash p1); [apply IH; lia|].
    assert (Htl : (List.length (List.tl p1) <= List.length p1)%nat)
      by (destruct p1; simpl; lia).
    destruct (Ascii.eqb c GoPath.dot &&
              match p1 with
              | c1 :: p2 => Ascii.eqb c1 GoPath.dot && GoPath.atEndOrSlash p2
              | [] => false
              end).
    + destruct (dotdot <? Z.of_nat (List.length out)).
      * destruct out; apply IH; lia.
      * destruct (negb rooted); apply IH; lia.
    + pose proof (element_rest_length p1) as Hrest.
      simpl GoPath.element. rewrite Hslash.
      destruct (GoPath.element p1) as [e rest]. simpl in Hrest.
      apply IH; lia.
Qed.

(** ** Properties of [checkSufficientDisks] *)

Section DiskCount.

Variables minErasureBlocks maxErasureBlocks : Z.

Local Abbreviation checkSufficientDisks :=
  (checkSufficientDisks minErasureBlocks maxErasureBlocks).

Lemma odd_rem_2 (n : Z) : 0 <= n -> Z.odd n = true -> (Z.rem n 2 =? 0) = false.
Proof.
  intros Hn Hodd. rewrite Z.rem_mod_nonneg by lia.
  rewrite Zmod_odd, Hodd. reflexivity.
Qed.

(** C3, as the code has it. For a list of odd size N > 1 the check never
    succeeds: it fails with [errXLNumDisks] when N lies within the bounds,
    with [errXLMaxDisks] when N exceeds [maxErasureBlocks], and with
    [errXLMinDisks] when N is below [minErasureBlocks]. *)
Theorem checkSufficientDisks_odd (eps : list URL) :
  let total := Z.of_nat (List.length eps) in
  Z.odd total = true -> 1 < total ->
  (minErasureBlocks <= total <= maxErasureBlocks ->
     checkSufficientDisks eps = Some errXLNumDisks)
  /\ (maxErasureBlocks < total -> checkSufficientDisks eps = Some errXLMaxDisks)
  /\ (total <= maxErasureBlocks -> total < minErasureBlocks ->
      checkSufficientDisks eps = Some errXLMinDisks)
  /\ checkSufficientDisks eps <> None.
Proof.
  intros total Hodd Hgt.
  assert (Hrem : (Z.rem total 2 =? 0) = false) by (apply odd_rem_2; [lia | exact Hodd]).
  unfold checkSufficientDisks. fold total. rewrite Hrem. simpl.
  repeat split.
  - intros [Hlo Hhi].
    destruct (Z.ltb_spec maxErasureBlocks total); [lia|].
    destruct (Z.ltb_spec total minErasureBlocks); [lia|]. reflexivity.
  - intros Hmax. destruct (Z.ltb_spec maxErasureBlocks total); [reflexivity|lia].
  - intros Hmax Hmin.
    destruct (Z.ltb_spec maxErasureBlocks total); [lia|].
    destruct (Z.ltb_spec total minErasureBlocks); [reflexivity|lia].
  - destruct (maxErasureBlocks <? total); [discriminate|].
    destruct (total <? minErasureBlocks); discriminate.
Qed.

(** An even size within the bounds is accepted. *)
Lemma checkSufficientDisks_even (eps : list URL) :
  let total := Z.of_nat (List.length eps) in
  Z.even total = true -> minErasureBlocks <= total <= maxErasureBlocks ->
  checkSufficientDisks eps = None.
Proof.
  intros total Heven [Hlo Hhi].
  unfold checkSufficientDisks. fold total.
  destruct (Z.ltb_spec maxErasureBlocks total); [lia|].
  destruct (Z.ltb_spec total minErasureBlocks); [lia|].
  rewrite Z.rem_mod_nonneg by lia.
  rewrite Zmod_even, Heven. reflexivity.
Qed.

End DiskCount.

(** Whatever the bounds are, some odd size above one is not answered with
    [errXLNumDisks]. *)
Lemma checkSufficientDisks_above_max_odd (minErasureBlocks maxErasureBlocks : Z) (u : URL) :
  exists eps : list URL,
    Z.odd (Z.of_nat (List.length eps)) = true /\ 1 < Z.of_nat (List.length eps) /\
    checkSufficientDisks minErasureBlocks maxErasureBlocks eps <> Some errXLNumDisks.
Proof.
  set (n := (2 * Z.to_nat maxErasureBlocks + 3)%nat).
  exists (List.repeat u n).
  rewrite List.repeat_length.
  assert (Hn : Z.of_nat n = 2 * Z.of_nat (Z.to_nat maxErasureBlocks) + 3) by (unfold n; lia).
  split; [|split].
  - rewrite Hn. rewrite Z.add_comm. rewrite Z.odd_add_mul_2. reflexivity.
  - lia.
  - unfold checkSufficientDisks. rewrite List.repeat_length.
    destruct (Z.ltb_spec maxErasureBlocks (Z.of_nat n)); [discriminate|lia].
Qed.

(** ** Properties of [checkEndpointURL] *)

Lemma emptyOrRoot_badPath (p : string) : emptyOrRoot p = true <-> badPath p.
Proof.
  unfold emptyOrRoot, badPath.
  rewrite !Bool.orb_true_iff, !String.eqb_eq. tauto.
Qed.

Lemma emptyOrRoot_false (p : string) : emptyOrRoot p = false <-> ~ badPath p.
Proof.
  rewrite <- emptyOrRoot_badPath. destruct (emptyOrRoot p); split; congruence.
Qed.

(** A letter that [strings.ToLower] leaves alone lies between 'a' and 'z'. *)
Lemma lowerByte_fixed_letter (c : ascii) :
  GoString.lowerByte c = c ->
  Plain.isLetter c = ((97 <=? nat_of_ascii c) && (nat_of_ascii c <=? 122))%nat.
Proof.
  destruct c as [[] [] [] [] [] [] [] []]; vm_compute; intros H;
    first [reflexivity | discriminate H].
Qed.

Lemma singleLetter_lower (s : string) :
  s = GoString.ToLower s -> singleLetter s = isDriveScheme s.
Proof.
  destruct s as [|c [|c' s]]; simpl; intros H; try reflexivity.
  injection H as H. apply lowerByte_fixed_letter. congruence.
Qed.

Section EndpointURL.

Variable URL_String : URL -> string.
Variable GOOS : string.

Local Abbreviation checkEndpointURL := (checkEndpointURL URL_String GOOS).
Local Abbreviation normalizedPath := (normalizedPath URL_String).

(** C8. For a URL as [url.Parse] returns it (its scheme is in lower case),
    [checkEndpointURL] succeeds exactly when the scheme is empty, [http],
    [https] or, on windows, one letter, and the path it normalizes is none
    of empty, ".", "/" and a bare backslash; under an accepted scheme a
    bad path gives the error "Empty or root path is not allowed"; any other
    scheme gives the error "Invalid scheme". *)
Theorem checkEndpointURL_iff (u : URL) :
  Scheme u = GoString.ToLower (Scheme u) ->
  (checkEndpointURL u = Return None <->
     schemeAccepted GOOS (Scheme u) = true /\
     exists p, normalizedPath u = Some p /\ ~ badPath p)
  /\ (schemeAccepted GOOS (Scheme u) = true ->
      forall p, normalizedPath u = Some p -> badPath p ->
      checkEndpointURL u = Return (Some (Errorf "Empty or root path is not allowed")))
  /\ (schemeAccepted GOOS (Scheme u) = false ->
      checkEndpointURL u = Return (Some (Errorf "Invalid scheme"))).
Proof.
  intros Hlower.
  unfold checkEndpointURL, normalizedPath, schemeAccepted.
  rewrite (singleLetter_lower _ Hlower).
  destruct (String.eqb (Scheme u) "" || String.eqb (Scheme u) "http"
            || String.eqb (Scheme u) "https") eqn:Hcommon; cbn [orb andb].
  - (* the schemes of all platforms *)
    repeat split.
    + exists (GoPath.Clean (Path u)). split; [reflexivity|].
      apply emptyOrRoot_false. destruct (emptyOrRoot _); congruence.
    + intros [_ (p & Hp & Hbad)]. injection Hp as <-.
      apply emptyOrRoot_false in Hbad. now rewrite Hbad.
    + intros _ p Hp Hbad. injection Hp as <-.
      apply emptyOrRoot_badPath in Hbad. now rewrite Hbad.
    + discriminate.
  - destruct (String.eqb GOOS "windows" && isDriveScheme (Scheme u)) eqn:Hdrive; cbn [orb andb].
    + (* a drive letter *)
      destruct (List.nth_error (GoString.SplitN2 (GoPath.Clean (URL_String u)) ":") 1)
        as [urlPath|] eqn:Hnth.
      * repeat split.
        -- exists urlPath. split; [reflexivity|].
           apply emptyOrRoot_false. destruct (emptyOrRoot _); congruence.
        -- intros [_ (p & Hp & Hbad)]. injection Hp as <-.
           apply emptyOrRoot_false in Hbad. now rewrite Hbad.
        -- intros _ p Hp Hbad. injection Hp as <-.
           apply emptyOrRoot_badPath in Hbad. now rewrite Hbad.
        -- discriminate.
      * repeat split; try discriminate.
        intros [_ (p & Hp & _)]. discriminate.
    + (* any other scheme *)
      repeat split; try discriminate.
      intros [H _]; discriminate.
Qed.

(** Off windows [checkEndpointURL] returns. *)
Lemma checkEndpointURL_returns (u : URL) :
  GOOS <> "windows" -> exists r, checkEndpointURL u = Return r.
Proof.
  intros H. apply String.eqb_neq in H.
  unfold checkEndpointURL. rewrite H. simpl.
  destruct (_ || _); eauto.
Qed.

End EndpointURL.

(** ** Properties of [checkServerSyntax] *)

Section SyntaxFacts.

Variable url_Parse : string -> result URL.
Variable URL_String : URL -> string.
Variable GOOS : string.
Variables minErasureBlocks maxErasureBlocks : Z.
Variable isLocalStorage : Globals -> URL -> bool.
Variable checkDuplicateEndpoints : list URL -> option error.
Variable error_text : error -> string.
Variable g : Globals.

Local Abbreviation parse := (parseStorageEndpoints url_Parse g).
Local Abbreviation syntaxOf := (checkEndpointsSyntax URL_String GOOS error_text).
Local Abbreviation syntaxFrom := (checkEndpointsSyntax_from URL_String GOOS error_text).
Local Abbreviation distributed := (isDistributedSetup isLocalStorage g).
Local Abbreviation sizeOf := (sizeCheck minErasureBlocks maxErasureBlocks).
Local Abbreviation serverSyntax :=
  (checkServerSyntax url_Parse URL_String GOOS minErasureBlocks maxErasureBlocks
     isLocalStorage checkDuplicateEndpoints error_text g).
Local Abbreviation localChecks :=
  (passesLocalChecks url_Parse URL_String GOOS minErasureBlocks maxErasureBlocks
     checkDuplicateEndpoints error_text g).

(** [checkServerSyntax] by stages. *)
Lemma checkServerSyntax_stages (c : Context) :
  serverSyntax c =
  let '(host, portStr, err) := net_SplitHostPort (address c) in
  match err with
  | Some e => Fatal (ErrAddr e) "Unable to parse %s."
  | None =>
      match parse (args c) with
      | Failed e => Fatal e "Unable to parse storage endpoints %s"
      | Ok endpoints =>
          match syntaxOf endpoints (args c) with
          | Return (Some e) => Fatal e "Invalid endpoints found %s"
          | Return None =>
              match checkDuplicateEndpoints endpoints with
              | Some e => Fatal e "Duplicate entries in %s"
              | None =>
                  bind (sizeOf endpoints) (fun _ =>
                    distributedChecks isLocalStorage g (address c) host portStr endpoints)
              end
          | Fatal e t => Fatal e t
          | Exit n => Exit n
          | Panic => Panic
          end
      end
  end.
Proof.
  unfold checkServerSyntax.
  destruct (net_SplitHostPort (address c)) as [[host portStr] [e|]]; simpl;
    [reflexivity|].
  destruct (parse (args c)) as [endpoints|e]; [|reflexivity].
  destruct (syntaxOf endpoints (args c)) as [[e|]| | |]; simpl; try reflexivity.
  destruct (checkDuplicateEndpoints endpoints); reflexivity.
Qed.

Lemma checkServerSyntax_after_local (c : Context) (host portStr : string)
    (endpoints : list URL) :
  localChecks c host portStr endpoints ->
  serverSyntax c = distributedChecks isLocalStorage g (address c) host portStr endpoints.
Proof.
  intros (Hsplit & Hparse & Hsyn & Hdup & Hsize).
  rewrite checkServerSyntax_stages, Hsplit, Hparse, Hsyn, Hdup, Hsize.
  reflexivity.
Qed.

(** The loop over the endpoints that asks for certificates. *)
Lemma forEach_https (endpoints : list URL) :
  forEach (fun ep =>
             if String.eqb (Scheme ep) "https" && negb (globalIsSSL g)
             then Fatal errInvalidArgument
                        "Certificates not provided for secure configuration"
             else Return tt) endpoints =
  if hasHTTPS endpoints && negb (globalIsSSL g)
  then Fatal errInvalidArgument "Certificates not provided for secure configuration"
  else Return tt.
Proof.
  unfold hasHTTPS.
  induction endpoints as [|ep rest IH]; simpl; [reflexivity|].
  destruct (String.eqb (Scheme ep) "https"), (negb (globalIsSSL g)); simpl;
    try reflexivity; rewrite IH; try reflexivity.
  now rewrite Bool.andb_false_r.
Qed.

Lemma hasHTTPS_iff (endpoints : list URL) :
  hasHTTPS endpoints = true <-> exists ep, In ep endpoints /\ Scheme ep = "https".
Proof.
  unfold hasHTTPS. rewrite List.existsb_exists.
  split; intros (ep & Hin & H); exists ep; split; auto; now apply String.eqb_eq.
Qed.

(** The syntax check neither exits nor, off windows and with a token for
    every endpoint, panics. *)
Lemma checkEndpointsSyntax_from_returns (eps : list URL) :
  forall (i : nat) (disks : list string),
    GOOS <> "windows" -> (i + List.length eps <= List.length disks)%nat ->
    exists r, syntaxFrom i eps disks = Return r.
Proof.
  induction eps as [|u rest IH]; intros i disks Hos Hlen; simpl.
  - eauto.
  - destruct (checkEndpointURL_returns URL_String GOOS u Hos) as [r Hr].
    rewrite Hr. simpl. destruct r as [err|].
    + destruct (List.nth_error disks i) eqn:Hnth; [eauto|].
      apply List.nth_error_None in Hnth. simpl in Hlen. lia.
    + apply IH; [assumption|]. simpl in Hlen. lia.
Qed.

(** The outcomes of the stage after the local checks. *)
Lemma distributedChecks_outcome (serverAddr host portStr : string) (endpoints : list URL)
    (r : ctl unit) :
  distributedChecks isLocalStorage g serverAddr host portStr endpoints = r ->
  r = Return tt \/
  r = Fatal errInvalidArgument "Port missing, Host:Port should be specified for --address" \/
  r = Fatal errInvalidArgument "%s is not available in %s" \/
  r = Fatal errInvalidArgument "%s matches % entries in %s" \/
  r = Fatal errInvalidArgument "Certificates not provided for secure configuration".
Proof.
  unfold distributedChecks. rewrite forEach_https. intros <-.
  destruct (negb (distributed endpoints)); [auto|].
  destruct (negb (String.eqb host "")); simpl.
  - destruct (String.eqb portStr ""); simpl; [auto|].
    destruct (foundCnt serverAddr endpoints =? 0); simpl; [auto|].
    destruct (1 <? foundCnt serverAddr endpoints); simpl; [auto 6|].
    destruct (hasHTTPS endpoints && negb (globalIsSSL g)); auto 6.
  - destruct (hasHTTPS endpoints && negb (globalIsSSL g)); auto 6.
Qed.

Lemma foundCnt_from_ge (serverAddr : string) (endpoints : list URL) :
  forall z : Z,
    z <= List.fold_left
           (fun cnt ep => if String.eqb (Host ep) serverAddr then cnt + 1 else cnt)
           endpoints z.
Proof.
  induction endpoints as [|ep rest IH]; simpl; intros z; [lia|].
  destruct (String.eqb (Host ep) serverAddr).
  - specialize (IH (z + 1)). lia.
  - apply IH.
Qed.

Lemma foundCnt_nonneg (serverAddr : string) (endpoints : list URL) :
  0 <= foundCnt serverAddr endpoints.
Proof. apply foundCnt_from_ge. Qed.

(** When the stage after the local checks succeeds on a distributed setup. *)
Lemma distributedChecks_ok (serverAddr host portStr : string) (endpoints : list URL) :
  distributed endpoints = true ->
  distributedChecks isLocalStorage g serverAddr host portStr endpoints = Return tt ->
  (host = "" \/ (portStr <> "" /\ foundCnt serverAddr endpoints = 1)) /\
  (hasHTTPS endpoints = true -> globalIsSSL g = true).
Proof.
  intros Hdist. unfold distributedChecks. rewrite forEach_https, Hdist. simpl.
  destruct (String.eqb host "") eqn:Hhost; simpl.
  - apply String.eqb_eq in Hhost.
    destruct (hasHTTPS endpoints), (globalIsSSL g); simpl; intros H;
      try discriminate; auto.
  - destruct (String.eqb portStr "") eqn:Hport; simpl; [discriminate|].
    apply String.eqb_neq in Hport.
    pose proof (foundCnt_nonneg serverAddr endpoints) as Hcnt.
    destruct (Z.eqb_spec (foundCnt serverAddr endpoints) 0); simpl; [discriminate|].
    destruct (Z.ltb_spec 1 (foundCnt serverAddr endpoints)); simpl; [discriminate|].
    destruct (hasHTTPS endpoints), (globalIsSSL g); simpl; intros Hr;
      try discriminate; split; auto; right; split; auto; lia.
Qed.

(** The syntax check returns or panics; it has no exit of its own. *)
Lemma checkEndpointURL_outcome (u : URL) :
  (exists r, checkEndpointURL URL_String GOOS u = Return r) \/
  checkEndpointURL URL_String GOOS u = Panic.
Proof.
  unfold checkEndpointURL.
  destruct (_ || _); [eauto|].
  destruct (_ && _); [|eauto].
  destruct (List.nth_error _ 1); eauto.
Qed.

Lemma checkEndpointsSyntax_from_outcome (eps : list URL) :
  forall (i : nat) (disks : list string),
    (exists r, syntaxFrom i eps disks = Return r) \/ syntaxFrom i eps disks = Panic.
Proof.
  induction eps as [|u rest IH]; intros i disks; simpl.
  - eauto.
  - destruct (checkEndpointURL_outcome u) as [[r ->]| ->]; simpl; [|auto].
    destruct r as [err|].
    + destruct (List.nth_error disks i); eauto.
    + apply IH.
Qed.

(** The local stage ends the run, or hands the endpoints on. *)
Lemma checkServerSyntax_local_or_later (c : Context) (endpoints : list URL) :
  parse (args c) = Ok endpoints ->
  (exists host portStr,
      localChecks c host portStr endpoints /\
      serverSyntax c =
        distributedChecks isLocalStorage g (address c) host portStr endpoints)
  \/ serverSyntax c = Panic
  \/ (exists e t, serverSyntax c = Fatal e t /\
        (t = "Unable to parse %s." \/ t = "Invalid endpoints found %s" \/
         t = "Duplicate entries in %s" \/
         (t = "Invalid number of disks supplied." /\
          1 < Z.of_nat (List.length endpoints)) \/
         (t = "%s, FS setup expects a filesystem path" /\ e = errInvalidArgument /\
          exists e0 rest, endpoints = e0 :: rest /\
            Z.of_nat (List.length endpoints) <= 1 /\
            Host e0 <> "" /\ Scheme e0 <> ""))).
Proof.
  intros Hparse.
  assert (Hlen : List.length endpoints = List.length (args c))
    by (eapply parseStorageEndpoints_length; eauto).
  rewrite checkServerSyntax_stages.
  destruct (net_SplitHostPort (address c)) as [[host portStr] [e|]] eqn:Hsplit.
  { right; right. exists (ErrAddr e), "Unable to parse %s.". auto. }
  rewrite Hparse.
  destruct (syntaxOf endpoints (args c)) as [[e|]| e t | n |] eqn:Hsyn.
  - right; right. exists e, "Invalid endpoints found %s". auto.
  - destruct (checkDuplicateEndpoints endpoints) as [e|] eqn:Hdup.
    { right; right. exists e, "Duplicate entries in %s". auto 6. }
    destruct (sizeOf endpoints) as [[]| e t | n |] eqn:Hsize.
    + left. exists host, portStr. split; [|reflexivity].
      unfold passesLocalChecks. auto 6.
    + right; right. exists e, t. split; [reflexivity|].
      unfold sizeCheck in Hsize.
      destruct (Z.ltb_spec 1 (Z.of_nat (List.length endpoints))).
      * destruct (checkSufficientDisks _ _ _); simpl in Hsize; [|discriminate].
        injection Hsize as -> <-. auto 6.
      * destruct endpoints as [|e0 rest]; [discriminate|].
        destruct (String.eqb (Host e0) "") eqn:Hh; simpl in Hsize; [discriminate|].
        destruct (String.eqb (Scheme e0) "") eqn:Hs; simpl in Hsize; [discriminate|].
        injection Hsize as <- <-.
        apply String.eqb_neq in Hh. apply String.eqb_neq in Hs.
        do 4 right. repeat split; auto. exists e0, rest. auto.
    + exfalso. unfold sizeCheck in Hsize.
      destruct (1 <? _).
      * destruct (checkSufficientDisks _ _ _); discriminate.
      * destruct endpoints as [|e0 rest]; [discriminate|].
        destruct (_ && _); discriminate.
    + right; left. reflexivity.
  - exfalso.
    destruct (checkEndpointsSyntax_from_outcome endpoints 0 (args c)) as [[r Hr]|Hr];
      unfold checkEndpointsSyntax in Hsyn; congruence.
  - exfalso.
    destruct (checkEndpointsSyntax_from_outcome endpoints 0 (args c)) as [[r Hr]|Hr];
      unfold checkEndpointsSyntax in Hsyn; congruence.
  - right; left. reflexivity.
Qed.

(** [checkServerSyntax] never leaves through [cli.ShowCommandHelpAndExit]. *)
Lemma checkServerSyntax_no_exit (c : Context) (n : Z) : serverSyntax c <> Exit n.
Proof.
  rewrite checkServerSyntax_stages.
  destruct (net_SplitHostPort (address c)) as [[host portStr] [e|]]; [discriminate|].
  destruct (parse (args c)) as [endpoints|e]; [|discriminate].
  destruct (checkEndpointsSyntax_from_outcome endpoints 0 (args c)) as [[r Hr]|Hr];
    unfold checkEndpointsSyntax; rewrite Hr; [|discriminate].
  destruct r as [e|]; [discriminate|].
  destruct (checkDuplicateEndpoints endpoints); [discriminate|].
  unfold sizeCheck.
  destruct (1 <? _).
  - destruct (checkSufficientDisks _ _ _); simpl; [discriminate|].
    intros H. apply distributedChecks_outcome in H.
    destruct H as [H|[H|[H|[H|H]]]]; discriminate H.
  - destruct endpoints as [|e0 rest]; [discriminate|].
    destruct (_ && _); simpl; [discriminate|].
    intros H. apply distributedChecks_outcome in H.
    destruct H as [H|[H|[H|[H|H]]]]; discriminate H.
Qed.

(** Off windows, with an argument given, [checkServerSyntax] does not panic. *)
Lemma checkServerSyntax_no_panic (c : Context) :
  GOOS <> "windows" -> args c <> [] -> serverSyntax c <> Panic.
Proof.
  intros Hos Hargs.
  rewrite checkServerSyntax_stages.
  destruct (net_SplitHostPort (address c)) as [[host portStr] [e|]]; [discriminate|].
  destruct (parse (args c)) as [endpoints|e] eqn:Hparse; [|discriminate].
  pose proof (parseStorageEndpoints_length _ _ _ _ Hparse) as Hlen.
  destruct (checkEndpointsSyntax_from_returns endpoints 0 (args c) Hos) as [r Hr];
    [simpl; lia|].
  unfold checkEndpointsSyntax. rewrite Hr.
  destruct r as [e|]; [discriminate|].
  destruct (checkDuplicateEndpoints endpoints); [discriminate|].
  unfold sizeCheck.
  destruct (1 <? _).
  - destruct (checkSufficientDisks _ _ _); simpl; [discriminate|].
    intros H. apply distributedChecks_outcome in H.
    destruct H as [H|[H|[H|[H|H]]]]; discriminate H.
  - destruct endpoints as [|e0 rest].
    + destruct (args c); [now elim Hargs | discriminate Hlen].
    + destruct (_ && _); simpl; [discriminate|].
      intros H. apply distributedChecks_outcome in H.
      destruct H as [H|[H|[H|[H|H]]]]; discriminate H.
Qed.

Lemma sizeCheck_single (u : URL) :
  sizeOf [u] =
  if negb (String.eqb (Host u) "") && negb (String.eqb (Scheme u) "")
  then Fatal errInvalidArgument "%s, FS setup expects a filesystem path"
  else Return tt.
Proof. reflexivity. Qed.

Lemma distributedChecks_local (serverAddr host portStr : string) (endpoints : list URL) :
  distributed endpoints = false ->
  distributedChecks isLocalStorage g serverAddr host portStr endpoints = Return tt.
Proof. intros H. unfold distributedChecks. now rewrite H. Qed.

(** C7. With exactly one endpoint parsed, the check of an erasure set is not
    run (no run ends on "Invalid number of disks supplied."): the endpoint is
    taken as an FS setup.  When it carries both a host and a scheme the
    validation does not succeed, off windows it ends in a fatal error, and
    once the bind address, the syntax and the duplicate check pass the
    error is [errInvalidArgument] with "FS setup expects a filesystem
    path". *)
Theorem checkServerSyntax_single_endpoint (c : Context) (u : URL) :
  parse (args c) = Ok [u] ->
  (forall e, serverSyntax c <> Fatal e "Invalid number of disks supplied.")
  /\ (Host u <> "" -> Scheme u <> "" ->
      serverSyntax c <> Return tt /\
      (GOOS <> "windows" -> exists e t, serverSyntax c = Fatal e t) /\
      (forall host portStr,
          net_SplitHostPort (address c) = (host, portStr, None) ->
          syntaxOf [u] (args c) = Return None ->
          checkDuplicateEndpoints [u] = None ->
          serverSyntax c =
            Fatal errInvalidArgument "%s, FS setup expects a filesystem path")).
Proof.
  intros Hparse.
  assert (Hboth : Host u <> "" -> Scheme u <> "" ->
                  sizeOf [u] =
                  Fatal errInvalidArgument "%s, FS setup expects a filesystem path").
  { intros Hh Hs. rewrite sizeCheck_single.
    apply String.eqb_neq in Hh. apply String.eqb_neq in Hs. now rewrite Hh, Hs. }
  split.
  - intros e He.
    destruct (checkServerSyntax_local_or_later c [u] Hparse)
      as [(host & portStr & _ & Heq) | [Hp | (e' & t & Heq & Ht)]].
    + rewrite Heq in He. apply distributedChecks_outcome in He.
      destruct He as [He|[He|[He|[He|He]]]]; discriminate He.
    + congruence.
    + rewrite Heq in He. injection He as -> ->.
      destruct Ht as [Ht|[Ht|[Ht|[[_ Ht]|[Ht _]]]]]; discriminate Ht.
  - intros Hh Hs. specialize (Hboth Hh Hs).
    assert (Hnot : serverSyntax c <> Return tt).
    { intros Hret.
      destruct (checkServerSyntax_local_or_later c [u] Hparse)
        as [(host & portStr & Hloc & _) | [Hp | (e' & t & Heq & _)]].
      - destruct Hloc as (_ & _ & _ & _ & Hsize). congruence.
      - congruence.
      - congruence. }
    split; [exact Hnot|]. split.
    + intros Hos.
      assert (Hargs : args c <> []).
      { intros Hnil. apply parseStorageEndpoints_length in Hparse.
        rewrite Hnil in Hparse. discriminate Hparse. }
      pose proof (checkServerSyntax_no_panic c Hos Hargs) as Hpanic.
      destruct (serverSyntax c) as [[]| e t | n |] eqn:Hr.
      * now elim Hnot.
      * eauto.
      * now elim (checkServerSyntax_no_exit c n).
      * now elim Hpanic.
    + intros host portStr Hsplit Hsyn Hdup.
      rewrite checkServerSyntax_stages, Hsplit, Hparse, Hsyn, Hdup, Hboth.
      reflexivity.
Qed.

(** C10. With exactly one endpoint parsed, a run ends on "FS setup expects
    a filesystem path" only when the endpoint has both a non-empty host and
    a non-empty scheme.  An endpoint with exactly one of the two passes the
    test of an FS setup: once the bind address, the syntax and the duplicate
    check pass, all the local checks pass, and the validation succeeds when
    the endpoint is local. *)
Theorem checkServerSyntax_FS_rejection (c : Context) (u : URL) :
  parse (args c) = Ok [u] ->
  (forall e, serverSyntax c = Fatal e "%s, FS setup expects a filesystem path" ->
             Host u <> "" /\ Scheme u <> "")
  /\ ((Host u <> "" /\ Scheme u = "") \/ (Host u = "" /\ Scheme u <> "") ->
      sizeOf [u] = Return tt /\
      forall host portStr,
        net_SplitHostPort (address c) = (host, portStr, None) ->
        syntaxOf [u] (args c) = Return None ->
        checkDuplicateEndpoints [u] = None ->
        localChecks c host portStr [u] /\
        (isLocalStorage g u = true -> serverSyntax c = Return tt)).
Proof.
  intros Hparse. split.
  - intros e He.
    destruct (checkServerSyntax_local_or_later c [u] Hparse)
      as [(host & portStr & _ & Heq) | [Hp | (e' & t & Heq & Ht)]].
    + rewrite Heq in He. apply distributedChecks_outcome in He.
      destruct He as [He|[He|[He|[He|He]]]]; discriminate He.
    + congruence.
    + rewrite Heq in He. injection He as -> ->.
      destruct Ht as [Ht|[Ht|[Ht|[[Ht _]|(_ & _ & e0 & rest & Hl & _ & Hh & Hs)]]]];
        try discriminate Ht.
      injection Hl as <- _. auto.
  - intros Hone.
    assert (Hsize : sizeOf [u] = Return tt).
    { rewrite sizeCheck_single.
      destruct Hone as [[_ Hs]|[Hh _]].
      - rewrite Hs. simpl. now rewrite Bool.andb_false_r.
      - rewrite Hh. reflexivity. }
    split; [exact Hsize|].
    intros host portStr Hsplit Hsyn Hdup.
    assert (Hloc : localChecks c host portStr [u]) by (unfold passesLocalChecks; auto 6).
    split; [exact Hloc|].
    intros Hlocal.
    rewrite (checkServerSyntax_after_local c host portStr [u] Hloc).
    apply distributedChecks_local. simpl. now rewrite Hlocal.
Qed.

(** C4, as the code has it. On a distributed setup (an endpoint that is not
    local) with an [https] endpoint and no certificates loaded, the
    validation never succeeds; off windows it ends fatally; and once every
    earlier check passes it ends with [errInvalidArgument] and "Certificates
    not provided for secure configuration". *)
Theorem checkServerSyntax_https_needs_certificates (c : Context) (endpoints : list URL) :
  globalIsSSL g = false ->
  parse (args c) = Ok endpoints ->
  (exists ep, In ep endpoints /\ Scheme ep = "https") ->
  distributed endpoints = true ->
  serverSyntax c <> Return tt
  /\ (GOOS <> "windows" -> exists e t, serverSyntax c = Fatal e t)
  /\ (forall host portStr,
        localChecks c host portStr endpoints ->
        host = "" \/ (portStr <> "" /\ foundCnt (address c) endpoints = 1) ->
        serverSyntax c =
          Fatal errInvalidArgument "Certificates not provided for secure configuration").
Proof.
  intros Hssl Hparse Hhttps Hdist.
  apply hasHTTPS_iff in Hhttps.
  assert (Hnot : serverSyntax c <> Return tt).
  { intros Hret.
    destruct (checkServerSyntax_local_or_later c endpoints Hparse)
      as [(host & portStr & _ & Heq) | [Hp | (e' & t & Heq & _)]]; try congruence.
    rewrite Heq in Hret. apply (distributedChecks_ok _ _ _ _ Hdist) in Hret.
    destruct Hret as [_ Hret]. specialize (Hret Hhttps). congruence. }
  split; [exact Hnot|]. split.
  - intros Hos.
    assert (Hargs : args c <> []).
    { intros Hnil. apply parseStorageEndpoints_length in Hparse.
      rewrite Hnil in Hparse.
      destruct endpoints; [discriminate Hdist | discriminate Hparse]. }
    pose proof (checkServerSyntax_no_panic c Hos Hargs) as Hpanic.
    destruct (serverSyntax c) as [[]| e t | n |] eqn:Hr.
    + now elim Hnot.
    + eauto.
    + now elim (checkServerSyntax_no_exit c n).
    + now elim Hpanic.
  - intros host portStr Hloc Hbind.
    rewrite (checkServerSyntax_after_local c host portStr endpoints Hloc).
    unfold distributedChecks. rewrite forEach_https, Hdist, Hhttps, Hssl. simpl.
    destruct Hbind as [->|[Hport Hcnt]]; simpl; [reflexivity|].
    apply String.eqb_neq in Hport. rewrite Hport, Hcnt.
    destruct (negb (String.eqb host "")); reflexivity.
Qed.

(** C6, as the code has it. With a bind address that carries a host, on a
    distributed setup (an endpoint that is not local) the validation
    succeeds only if exactly one endpoint has the bind address as its
    [Host]; once the earlier checks pass and the bind address has a port, no
    match ends the run with "is not available in" and more than one match
    with "matches ... entries in"; and each of these two endings arises only
    from its own count. *)
Theorem checkServerSyntax_bind_address_match (c : Context) (host portStr : string)
    (err : option AddrError) (endpoints : list URL) :
  net_SplitHostPort (address c) = (host, portStr, err) -> host <> "" ->
  parse (args c) = Ok endpoints ->
  distributed endpoints = true ->
  (serverSyntax c = Return tt -> foundCnt (address c) endpoints = 1)
  /\ (localChecks c host portStr endpoints -> portStr <> "" ->
      (foundCnt (address c) endpoints = 0 ->
       serverSyntax c = Fatal errInvalidArgument "%s is not available in %s") /\
      (1 < foundCnt (address c) endpoints ->
       serverSyntax c = Fatal errInvalidArgument "%s matches % entries in %s"))
  /\ (forall e, serverSyntax c = Fatal e "%s is not available in %s" ->
                foundCnt (address c) endpoints = 0)
  /\ (forall e, serverSyntax c = Fatal e "%s matches % entries in %s" ->
                1 < foundCnt (address c) endpoints).
Proof.
  intros Hsplit Hhost Hparse Hdist.
  assert (Hlater : forall r,
             serverSyntax c = r ->
             (exists e t, r = Fatal e t /\
                          t <> "%s is not available in %s" /\
                          t <> "%s matches % entries in %s")
             \/ r = Panic
             \/ distributedChecks isLocalStorage g (address c) host portStr endpoints = r).
  { intros r <-.
    destruct (checkServerSyntax_local_or_later c endpoints Hparse)
      as [(host' & portStr' & Hloc & Heq) | [Hp | (e' & t & Heq & Ht)]].
    - right; right. destruct Hloc as (Hsplit' & _). rewrite Hsplit in Hsplit'.
      injection Hsplit' as -> -> _. now rewrite Heq.
    - auto.
    - left. exists e', t. split; [exact Heq|].
      destruct Ht as [Ht|[Ht|[Ht|[[Ht _]|[Ht _]]]]]; subst t; split; discriminate. }
  assert (Hstage : forall r,
             distributedChecks isLocalStorage g (address c) host portStr endpoints = r ->
             r =
             if String.eqb portStr "" then
               Fatal errInvalidArgument
                     "Port missing, Host:Port should be specified for --address"
             else if foundCnt (address c) endpoints =? 0 then
               Fatal errInvalidArgument "%s is not available in %s"
             else if 1 <? foundCnt (address c) endpoints then
               Fatal errInvalidArgument "%s matches % entries in %s"
             else if hasHTTPS endpoints && negb (globalIsSSL g) then
               Fatal errInvalidArgument "Certificates not provided for secure configuration"
             else Return tt).
  { intros r <-. unfold distributedChecks. rewrite forEach_https, Hdist.
    apply String.eqb_neq in Hhost. rewrite Hhost. simpl.
    destruct (String.eqb portStr ""); simpl; [reflexivity|].
    destruct (foundCnt (address c) endpoints =? 0); simpl; [reflexivity|].
    destruct (1 <? foundCnt (address c) endpoints); reflexivity. }
  pose proof (foundCnt_nonneg (address c) endpoints) as Hcnt.
  repeat split.
  - intros Hret.
    destruct (Hlater _ Hret) as [(e & t & He & _) | [Hp | Hd]]; try discriminate.
    apply Hstage in Hd.
    destruct (String.eqb portStr ""); [discriminate|].
    destruct (Z.eqb_spec (foundCnt (address c) endpoints) 0); [discriminate|].
    destruct (Z.ltb_spec 1 (foundCnt (address c) endpoints)); [discriminate|]. lia.
  - intros Hzero.
    rewrite (checkServerSyntax_after_local c host portStr endpoints H).
    rewrite (Hstage _ eq_refl).
    apply String.eqb_neq in H0. now rewrite H0, Hzero.
  - intros Hmany.
    rewrite (checkServerSyntax_after_local c host portStr endpoints H).
    rewrite (Hstage _ eq_refl).
    apply String.eqb_neq in H0. rewrite H0.
    destruct (Z.eqb_spec (foundCnt (address c) endpoints) 0); [lia|].
    destruct (Z.ltb_spec 1 (foundCnt (address c) endpoints)); [reflexivity|lia].
  - intros e He.
    destruct (Hlater _ He) as [(e' & t & Heq & Ht & _) | [Hp | Hd]]; try discriminate.
    + injection Heq as _ <-. now elim Ht.
    + apply Hstage in Hd.
      destruct (String.eqb portStr ""); [discriminate|].
      destruct (Z.eqb_spec (foundCnt (address c) endpoints) 0); [assumption|].
      destruct (1 <? foundCnt (address c) endpoints); [discriminate|].
      destruct (_ && _); discriminate.
  - intros e He.
    destruct (Hlater _ He) as [(e' & t & Heq & _ & Ht) | [Hp | Hd]]; try discriminate.
    + injection Heq as _ <-. now elim Ht.
    + apply Hstage in Hd.
      destruct (String.eqb portStr ""); [discriminate|].
      destruct (foundCnt (address c) endpoints =? 0); [discriminate|].
      destruct (Z.ltb_spec 1 (foundCnt (address c) endpoints)); [assumption|].
      destruct (_ && _); discriminate.
Qed.

End SyntaxFacts.

(** ** Properties of the ordering *)

Lemma ltb_lt (a b : string) : GoString.ltb a b = true <-> String_as_OT.lt a b.
Proof.
  unfold GoString.ltb, String_as_OT.lt.
  destruct (String_as_OT.compare a b); split; congruence.
Qed.

Lemma string_trichotomy (a b : string) :
  String_as_OT.lt a b \/ a = b \/ String_as_OT.lt b a.
Proof.
  destruct (String_as_OT.compare_spec a b); auto.
Qed.

Lemma string_lt_irrefl (a : string) : ~ String_as_OT.lt a a.
Proof. apply (StrictOrder_Irreflexive (R := String_as_OT.lt)). Qed.

Lemma string_lt_trans (a b c : string) :
  String_as_OT.lt a b -> String_as_OT.lt b c -> String_as_OT.lt a c.
Proof. apply (StrictOrder_Transitive (R := String_as_OT.lt)). Qed.

Lemma keyLess_iff (k1 k2 : string * string) :
  keyLess k1 k2 = true <->
  String_as_OT.lt (fst k1) (fst k2) \/
  (fst k1 = fst k2 /\ String_as_OT.lt (snd k1) (snd k2)).
Proof.
  unfold keyLess.
  rewrite Bool.orb_true_iff, Bool.andb_true_iff, !ltb_lt, String.eqb_eq. tauto.
Qed.

Lemma keyLess_irrefl (k : string * string) : keyLess k k = false.
Proof.
  destruct (keyLess k k) eqn:H; [|reflexivity].
  apply keyLess_iff in H. destruct H as [H|[_ H]]; now apply string_lt_irrefl in H.
Qed.

Lemma keyLess_trans (a b c : string * string) :
  keyLess a b = true -> keyLess b c = true -> keyLess a c = true.
Proof.
  rewrite !keyLess_iff. intros [H1|[E1 H1]] [H2|[E2 H2]].
  - left. eapply string_lt_trans; eauto.
  - left. now rewrite <- E2.
  - left. now rewrite E1.
  - right. split; [congruence|]. eapply string_lt_trans; eauto.
Qed.

Lemma keyLess_trichotomy (a b : string * string) :
  keyLess a b = true \/ a = b \/ keyLess b a = true.
Proof.
  rewrite !keyLess_iff. destruct a as [h1 p1], b as [h2 p2]; simpl.
  destruct (string_trichotomy h1 h2) as [H|[->|H]]; auto.
  destruct (string_trichotomy p1 p2) as [H|[->|H]]; auto.
Qed.

Lemma keyLess_asym (a b : string * string) :
  keyLess a b = true -> keyLess b a = false.
Proof.
  intros H. destruct (keyLess b a) eqn:H'; [|reflexivity].
  pose proof (keyLess_trans _ _ _ H H') as Hc. now rewrite keyLess_irrefl in Hc.
Qed.

(** "Not after": transitive, and antisymmetric on the keys. *)
Lemma keyLeq_trans (a b c : string * string) :
  keyLess b a = false -> keyLess c b = false -> keyLess c a = false.
Proof.
  intros Hab Hbc. destruct (keyLess c a) eqn:Hca; [|reflexivity].
  destruct (keyLess_trichotomy a b) as [H|[->|H]]; try congruence.
  pose proof (keyLess_trans _ _ _ Hca H). congruence.
Qed.

Lemma keyLeq_antisym (a b : string * string) :
  keyLess b a = false -> keyLess a b = false -> a = b.
Proof.
  intros H1 H2. destruct (keyLess_trichotomy a b) as [H|[->|H]]; congruence.
Qed.

Lemma byHostPath_Less_key (a b : URL) :
  byHostPath_Less a b = keyLess (hostPath a) (hostPath b).
Proof. reflexivity. Qed.

(** Two key lists in order with the same elements are equal. *)
Lemma keys_in_order_unique (l : list (string * string)) :
  forall l' : list (string * string),
    StronglySorted (fun a b => keyLess b a = false) l ->
    StronglySorted (fun a b => keyLess b a = false) l' ->
    Permutation l l' -> l = l'.
Proof.
  induction l as [|a r IH]; intros l' Hl Hl' Hperm.
  - apply Permutation_nil in Hperm. now subst.
  - destruct l' as [|b r'].
    + symmetry in Hperm. apply Permutation_nil in Hperm. discriminate.
    + apply StronglySorted_inv in Hl. destruct Hl as [Hr Ha].
      apply StronglySorted_inv in Hl'. destruct Hl' as [Hr' Hb].
      rewrite List.Forall_forall in Ha, Hb.
      assert (Hab : a = b).
      { assert (Hina : In a (b :: r'))
          by (eapply Permutation_in; [exact Hperm | now left]).
        assert (Hinb : In b (a :: r))
          by (eapply Permutation_in; [symmetry; exact Hperm | now left]).
        destruct Hina as [->|Hina]; [reflexivity|].
        destruct Hinb as [->|Hinb]; [reflexivity|].
        apply keyLeq_antisym; auto. }
      subst b. f_equal. apply IH; auto.
      eapply Permutation_cons_inv; eauto.
Qed.

Lemma inOrder_keys (l : list URL) :
  inOrder l -> StronglySorted (fun a b => keyLess b a = false) (List.map hostPath l).
Proof.
  intros H. apply Sorted_StronglySorted.
  - intros a b c Hab Hbc. eapply keyLeq_trans; eauto.
  - induction H as [|a l Hs IH Hhd]; simpl; constructor; auto.
    destruct Hhd as [|b l Hb]; simpl; constructor.
    now rewrite <- byHostPath_Less_key.
Qed.

(** A map that is injective on the elements of a list is cancelled. *)
Lemma map_eq_inj {A B : Type} (f : A -> B) (l : list A) :
  forall l' : list A,
    List.map f l = List.map f l' ->
    (forall x y, In x l -> In y l' -> f x = f y -> x = y) ->
    l = l'.
Proof.
  induction l as [|a r IH]; intros [|b r'] Hmap Hinj; try discriminate.
  - reflexivity.
  - simpl in Hmap. injection Hmap as Hab Hr.
    f_equal.
    + apply Hinj; simpl; auto.
    + apply IH; auto. intros x y Hx Hy. apply Hinj; simpl; auto.
Qed.

Lemma NoDup_map_injective {A B : Type} (f : A -> B) (l : list A) :
  NoDup (List.map f l) ->
  forall x y, In x l -> In y l -> f x = f y -> x = y.
Proof.
  induction l as [|a r IH]; simpl; intros Hnd x y Hx Hy Hf; [contradiction|].
  inversion Hnd as [|? ? Hnotin Hnd']; subst.
  destruct Hx as [->|Hx], Hy as [->|Hy]; auto.
  - exfalso. apply Hnotin. rewrite Hf. now apply List.in_map.
  - exfalso. apply Hnotin. rewrite <- Hf. now apply List.in_map.
Qed.

Section Ordering.

(** [sort.Sort(byHostPath(endpoints))], by its contract: the slice is
    permuted and left in order. *)
Variable sort_byHostPath : list URL -> list URL.
Hypothesis sort_permutes : forall l, Permutation (sort_byHostPath l) l.
Hypothesis sort_orders : forall l, inOrder (sort_byHostPath l).

(** C2, as the ordering allows it. For two orderings of the same endpoints
    the sorted lists carry the same (host, path) at every position; they
    are the same lists when no two endpoints share host and path. *)
Theorem sort_byHostPath_deterministic (l1 l2 : list URL) :
  Permutation l1 l2 ->
  List.map hostPath (sort_byHostPath l1) = List.map hostPath (sort_byHostPath l2)
  /\ (NoDup (List.map hostPath l1) -> sort_byHostPath l1 = sort_byHostPath l2).
Proof.
  intros Hperm.
  assert (Hkeys : List.map hostPath (sort_byHostPath l1) =
                  List.map hostPath (sort_byHostPath l2)).
  { apply keys_in_order_unique; try (apply inOrder_keys, sort_orders).
    apply Permutation_map.
    rewrite (sort_permutes l1), (sort_permutes l2). exact Hperm. }
  split; [exact Hkeys|].
  intros Hnd. apply (map_eq_inj hostPath); [exact Hkeys|].
  intros x y Hx Hy. apply (NoDup_map_injective hostPath l1 Hnd).
  - eapply Permutation_in; [apply sort_permutes | exact Hx].
  - eapply Permutation_in; [|exact Hy].
    rewrite (sort_permutes l2). symmetry. exact Hperm.
Qed.

End Ordering.

(** ** [insertionSort] meets the contract of [sort.Sort] *)

Lemma Sorted_snoc {A : Type} (R : A -> A -> Prop) (l : list A) (a : A) :
  Sorted R l ->
  match List.rev l with [] => True | b :: _ => R b a end ->
  Sorted R (l ++ [a]).
Proof.
  induction 1 as [|x l Hs IH Hhd]; simpl; intros Hlast.
  - repeat constructor.
  - constructor.
    + apply IH. destruct (List.rev l) as [|b r]; [exact I|]. exact Hlast.
    + destruct Hhd as [|y l Hy]; simpl in *; constructor; auto.
Qed.

Lemma Sorted_rev {A : Type} (R : A -> A -> Prop) (l : list A) :
  Sorted R l -> Sorted (fun a b => R b a) (List.rev l).
Proof.
  induction 1 as [|x l Hs IH Hhd]; simpl; [constructor|].
  apply Sorted_snoc; [exact IH|].
  rewrite List.rev_involutive. destruct Hhd; [exact I | assumption].
Qed.

Section InsertionSort.

Variable A : Type.
Variable Less : A -> A -> bool.
Hypothesis Less_asym : forall a b, Less a b = true -> Less b a = false.

Local Abbreviation sink := (GoSort.sink A Less).
Local Abbreviation insertionSort := (GoSort.insertionSort A Less).

Lemma sink_permutes (x : A) (below : list A) :
  Permutation (sink x below) (x :: below).
Proof.
  induction below as [|y rest IH]; simpl; [reflexivity|].
  destruct (Less x y); [|reflexivity].
  rewrite IH. apply perm_swap.
Qed.

Lemma sink_descends (x : A) (below : list A) :
  Sorted (fun a b => Less a b = false) below ->
  Sorted (fun a b => Less a b = false) (sink x below).
Proof.
  induction 1 as [|y rest Hs IH Hhd]; simpl.
  - repeat constructor.
  - destruct (Less x y) eqn:Hxy.
    + constructor; [exact IH|].
      destruct Hhd as [|z rest Hz]; simpl.
      * constructor. now apply Less_asym.
      * destruct (Less x z); constructor; auto.
    + constructor; [constructor; assumption|]. constructor. exact Hxy.
Qed.

Lemma sinks_permute (data : list A) :
  forall below : list A,
    Permutation (List.fold_left (fun b x => sink x b) data below)
                (List.rev data ++ below).
Proof.
  induction data as [|x rest IH]; intros below; simpl; [reflexivity|].
  rewrite IH, sink_permutes, <- List.app_assoc. simpl.
  apply Permutation_app_head. reflexivity.
Qed.

Lemma sinks_descend (data : list A) :
  forall below : list A,
    Sorted (fun a b => Less a b = false) below ->
    Sorted (fun a b => Less a b = false)
           (List.fold_left (fun b x => sink x b) data below).
Proof.
  induction data as [|x rest IH]; intros below Hs; simpl; [exact Hs|].
  apply IH. now apply sink_descends.
Qed.

Lemma insertionSort_permutes (data : list A) : Permutation (insertionSort data) data.
Proof.
  unfold GoSort.insertionSort.
  rewrite <- Permutation_rev, sinks_permute, List.app_nil_r.
  symmetry. apply Permutation_rev.
Qed.

Lemma insertionSort_orders (data : list A) :
  Sorted (fun a b => Less b a = false) (insertionSort data).
Proof.
  unfold GoSort.insertionSort.
  apply (Sorted_rev (fun a b => Less a b = false)).
  apply sinks_descend. constructor.
Qed.

End InsertionSort.

Lemma byHostPath_Less_asym (a b : URL) :
  byHostPath_Less a b = true -> byHostPath_Less b a = false.
Proof. rewrite !byHostPath_Less_key. apply keyLess_asym. Qed.

Lemma insertionSort_byHostPath_inOrder (l : list URL) :
  inOrder (GoSort.insertionSort URL byHostPath_Less l).
Proof. apply insertionSort_orders. exact byHostPath_Less_asym. Qed.

(** ** Properties of [serverMain] *)

Section StartupFacts.

Variable url_Parse : string -> result URL.
Variable URL_String : URL -> string.
Variable GOOS : string.
Variables minErasureBlocks maxErasureBlocks : Z.
Variable isLocalStorage : Globals -> URL -> bool.
Variable checkDuplicateEndpoints : list URL -> option error.
Variable error_text : error -> string.
Variable sort_byHostPath : list URL -> list URL.
Variables StorageAPI Handler APIEndpoints ObjectLayer : Type.
Variable checkPortAvailability : string -> option error.
Variable createCertsPath : option error.
Variable envCredentials : bool.
Variable serverConfig_Save : option error.
Variable initStorageDisks : list URL -> result (list StorageAPI).
Variable houseKeeping : list StorageAPI -> option error.
Variable configureServerHandler : serverCmdConfig StorageAPI -> result Handler.
Variable initDsyncNodes : list URL -> option error.
Variable finalizeAPIEndpoints : string -> result APIEndpoints.
Variable waitForFormatDisks :
  bool -> list URL -> list StorageAPI -> result (list StorageAPI).
Variable newObjectLayer : list StorageAPI -> result ObjectLayer.

Local Abbreviation main :=
  (serverMain url_Parse URL_String GOOS minErasureBlocks maxErasureBlocks
     isLocalStorage checkDuplicateEndpoints error_text sort_byHostPath
     StorageAPI Handler APIEndpoints ObjectLayer checkPortAvailability
     createCertsPath envCredentials serverConfig_Save initStorageDisks
     houseKeeping configureServerHandler initDsyncNodes finalizeAPIEndpoints
     waitForFormatDisks newObjectLayer).
Local Abbreviation serverSyntax :=
  (checkServerSyntax url_Parse URL_String GOOS minErasureBlocks maxErasureBlocks
     isLocalStorage checkDuplicateEndpoints error_text).

(** C5. When none of the endpoints parsed from the arguments is local, the
    run of [serverMain] does not reach the wait for shutdown, and none of
    its events initializes the storage disks or starts the listener.  Past
    the usage test and off windows it ends in a fatal error; and once
    [checkServerSyntax] passes the error is [errInvalidArgument] with "None
    of the disks passed as command line args are local to this server.". *)
Theorem serverMain_no_local_endpoint (g0 : Globals) (c : Context) :
  (forall host port endpoints,
      getHostPort checkPortAvailability (address c) = (host, port, None) ->
      parseStorageEndpoints url_Parse (mkGlobals host port (globalIsSSL g0)) (args c)
        = Ok endpoints ->
      isAnyEndpointLocal isLocalStorage (mkGlobals host port (globalIsSSL g0)) endpoints
        = false) ->
  List.Forall (fun e => startsStorageOrListener e = false) (fst (main g0 c))
  /\ snd (main g0 c) <> Return tt
  /\ (args c <> [] -> List.hd "" (args c) <> "help" -> GOOS <> "windows" ->
      exists e t, snd (main g0 c) = Fatal e t)
  /\ (forall host port,
        args c <> [] -> List.hd "" (args c) <> "help" ->
        getHostPort checkPortAvailability (address c) = (host, port, None) ->
        serverSyntax (mkGlobals host port (globalIsSSL g0)) c = Return tt ->
        snd (main g0 c) =
          Fatal errInvalidArgument
            "None of the disks passed as command line args are local to this server.").
Proof.
  intros Hnone.
  unfold serverMain.
  destruct (negb (0 <? Z.of_nat (List.length (args c)))
            || String.eqb (List.hd "" (args c)) "help") eqn:Husage.
  - (* usage *)
    simpl. split; [repeat constructor|]. split; [discriminate|]. split.
    + intros Hargs Hhelp _. exfalso.
      apply Bool.orb_true_iff in Husage. destruct Husage as [Hu|Hu].
      * destruct (args c); [now elim Hargs | discriminate Hu].
      * apply String.eqb_eq in Hu. contradiction.
    + intros host port Hargs Hhelp _ _. exfalso.
      apply Bool.orb_true_iff in Husage. destruct Husage as [Hu|Hu].
      * destruct (args c); [now elim Hargs | discriminate Hu].
      * apply String.eqb_eq in Hu. contradiction.
  - destruct (getHostPort checkPortAvailability (address c)) as [[host port] [e|]] eqn:Hhp.
    + (* the bind address is refused *)
      simpl. split; [repeat constructor|]. split; [discriminate|]. split.
      * eauto.
      * intros host' port' _ _ H. discriminate H.
    + specialize (Hnone host port).
      pose proof (checkServerSyntax_no_exit url_Parse URL_String GOOS minErasureBlocks
                    maxErasureBlocks isLocalStorage checkDuplicateEndpoints error_text
                    (mkGlobals host port (globalIsSSL g0)) c) as Hexit.
      pose proof (checkServerSyntax_no_panic url_Parse URL_String GOOS minErasureBlocks
                    maxErasureBlocks isLocalStorage checkDuplicateEndpoints error_text
                    (mkGlobals host port (globalIsSSL g0)) c) as Hpanic.
      destruct (serverSyntax (mkGlobals host port (globalIsSSL g0)) c)
        as [[]| e t | n |] eqn:Hsyn.
      * (* the syntax is accepted *)
        destruct (parseStorageEndpoints url_Parse (mkGlobals host port (globalIsSSL g0))
                    (args c)) as [endpoints|e] eqn:Hparse.
        -- specialize (Hnone endpoints eq_refl eq_refl).
           cbn [lift emit pbind fatalIf app fst snd]. rewrite Hnone.
           cbn [negb lift pbind app fst snd].
           split; [repeat constructor|]. split; [discriminate|]. split; [eauto|].
           intros host' port' _ _ H _. reflexivity.
        -- cbn [lift emit pbind fatalIf app fst snd].
           split; [repeat constructor|]. split; [discriminate|]. split; [eauto|].
           intros host' port' _ _ H Hs. injection H as <- <-.
           exfalso. clear Hnone Hexit Hpanic.
           rewrite checkServerSyntax_stages in Hs.
           destruct (net_SplitHostPort (address c)) as [[h p] [e'|]]; [discriminate|].
           rewrite Hparse in Hs. discriminate Hs.
      * cbn [lift emit pbind fatalIf app fst snd].
        split; [repeat constructor|]. split; [discriminate|]. split; [eauto|].
        intros host' port' _ _ H Hs. injection H as <- <-. congruence.
      * now elim (Hexit n).
      * cbn [lift emit pbind fatalIf app fst snd].
        split; [repeat constructor|]. split; [discriminate|]. split.
        -- intros Hargs _ Hos. now elim (Hpanic Hos Hargs).
        -- intros host' port' _ _ H Hs. injection H as <- <-. congruence.
Qed.

End StartupFacts.

(** ** The properties on concrete runs *)

Lemma parseStorageEndpoints_port_rules_witness :
  parseStorageEndpoint Plain.url_Parse Example.defaultGlobals "http://node1:9001/export"
    = Failed (errPortConfigurable "node1:9001") /\
  exists e, Example.parse Example.defaultGlobals ["/data"; "http://node1:9001/export"]
            = Failed e.
Proof.
  refine (proj1 (parseStorageEndpoints_port_rules Plain.url_Parse Example.defaultGlobals
                   ["/data"; "http://node1:9001/export"] "http://node1:9001/export"
                   (mkURL "http" "" "node1:9001" "/export" "" "") "node1" "9001" None
                   _ _ _ _ _) _ _).
  - simpl. auto.
  - discriminate.
  - reflexivity.
  - discriminate.
  - reflexivity.
  - reflexivity.
  - discriminate.
Defined.

Lemma parseStorageEndpoints_joins_port_witness :
  exists (ep : string) (u0 : URL),
    In ep ["http://node1/export"; "/data"] /\
    Plain.url_Parse ep = Ok u0 /\ Host u0 <> "" /\
    mkURL "http" "" "node1:9000" "/export" "" "" =
      URL_withHost u0 (net_JoinHostPort (Host u0) "9000") /\
    carriesPort "node1:9000" "9000".
Proof.
  refine (parseStorageEndpoints_joins_port Plain.url_Parse Example.defaultGlobals
            ["http://node1/export"; "/data"]
            [mkURL "http" "" "node1:9000" "/export" "" ""; Example.disk "/data"]
            _ _ (mkURL "http" "" "node1:9000" "/export" "" "") _ _).
  - reflexivity.
  - reflexivity.
  - simpl. auto.
  - discriminate.
Defined.

Lemma checkSufficientDisks_odd_witness :
  checkSufficientDisks Plain.minErasureBlocks Plain.maxErasureBlocks Example.fiveDisks
    = Some errXLNumDisks.
Proof.
  refine (proj1 (checkSufficientDisks_odd Plain.minErasureBlocks Plain.maxErasureBlocks
                   Example.fiveDisks _ _) _).
  - reflexivity.
  - reflexivity.
  - vm_compute. split; discriminate.
Defined.

(** With the bounds 4 and 16 of the comment in [checkSufficientDisks], three
    endpoints are answered with [errXLMinDisks] and seventeen with
    [errXLMaxDisks], not with [errXLNumDisks]. *)
Lemma checkSufficientDisks_odd_out_of_bounds :
  Z.odd (Z.of_nat (List.length Example.threeDisks)) = true /\
  1 < Z.of_nat (List.length Example.threeDisks) /\
  checkSufficientDisks Plain.minErasureBlocks Plain.maxErasureBlocks Example.threeDisks
    = Some errXLMinDisks /\
  checkSufficientDisks Plain.minErasureBlocks Plain.maxErasureBlocks Example.threeDisks
    <> Some errXLNumDisks /\
  Z.odd (Z.of_nat (List.length Example.seventeenDisks)) = true /\
  checkSufficientDisks Plain.minErasureBlocks Plain.maxErasureBlocks
    Example.seventeenDisks = Some errXLMaxDisks.
Proof.
  repeat split; try reflexivity. discriminate.
Qed.

Lemma checkEndpointURL_iff_witness :
  checkEndpointURL Plain.URL_String "linux" (mkURL "http" "" "node1:9000" "/export" "" "")
    = Return None <->
  schemeAccepted "linux" "http" = true /\
  exists p, normalizedPath Plain.URL_String (mkURL "http" "" "node1:9000" "/export" "" "")
            = Some p /\ ~ badPath p.
Proof.
  refine (proj1 (checkEndpointURL_iff Plain.URL_String "linux"
                   (mkURL "http" "" "node1:9000" "/export" "" "") _)).
  reflexivity.
Defined.

Lemma checkServerSyntax_single_endpoint_witness :
  Example.serverSyntax [] Example.defaultGlobals Example.singleNetworked
    = Fatal errInvalidArgument "%s, FS setup expects a filesystem path".
Proof.
  refine (proj2 (proj2 (proj2 (checkServerSyntax_single_endpoint
                                 Plain.url_Parse Plain.URL_String "linux"
                                 Plain.minErasureBlocks Plain.maxErasureBlocks
                                 (Plain.isLocalStorage []) Plain.checkDuplicateEndpoints
                                 Plain.error_text Example.defaultGlobals
                                 Example.singleNetworked
                                 (mkURL "http" "" "node1:9000" "/export" "" "") _) _ _))
                "" "9000" _ _ _).
  - reflexivity.
  - discriminate.
  - discriminate.
  - reflexivity.
  - reflexivity.
  - reflexivity.
Defined.

Lemma checkServerSyntax_FS_rejection_witness :
  sizeCheck Plain.minErasureBlocks Plain.maxErasureBlocks
    [mkURL "" "" "node1:9000" "/export" "" ""] = Return tt /\
  (Example.serverSyntax ["node1"] Example.defaultGlobals Example.singleHostOnly
     = Return tt).
Proof.
  pose proof (checkServerSyntax_FS_rejection
                Plain.url_Parse Plain.URL_String "linux"
                Plain.minErasureBlocks Plain.maxErasureBlocks
                (Plain.isLocalStorage ["node1"]) Plain.checkDuplicateEndpoints
                Plain.error_text Example.defaultGlobals Example.singleHostOnly
                (mkURL "" "" "node1:9000" "/export" "" "") eq_refl) as [_ H].
  destruct H as [Hsize Hrest].
  - left. split; [discriminate | reflexivity].
  - split; [exact Hsize|].
    destruct (Hrest "" "9000" eq_refl eq_refl eq_refl) as [_ Hok].
    apply Hok. reflexivity.
Defined.

Lemma checkServerSyntax_https_needs_certificates_witness :
  Example.serverSyntax [] Example.defaultGlobals Example.httpsNodes
    = Fatal errInvalidArgument "Certificates not provided for secure configuration".
Proof.
  refine (proj2 (proj2 (checkServerSyntax_https_needs_certificates
                          Plain.url_Parse Plain.URL_String "linux"
                          Plain.minErasureBlocks Plain.maxErasureBlocks
                          (Plain.isLocalStorage []) Plain.checkDuplicateEndpoints
                          Plain.error_text Example.defaultGlobals Example.httpsNodes
                          [mkURL "https" "" "node1:9000" "/d1" "" "";
                           mkURL "https" "" "node2:9000" "/d1" "" "";
                           mkURL "https" "" "node3:9000" "/d1" "" "";
                           mkURL "https" "" "node4:9000" "/d1" "" ""]
                          _ _ _ _)) "" "9000" _ _).
  - reflexivity.
  - reflexivity.
  - exists (mkURL "https" "" "node1:9000" "/d1" "" ""). simpl. auto.
  - reflexivity.
  - unfold passesLocalChecks. repeat split; reflexivity.
  - left. reflexivity.
Defined.

(** Four [https] endpoints on this machine pass the validation with no
    certificates loaded. *)
Lemma checkServerSyntax_https_local_accepted :
  globalIsSSL Example.defaultGlobals = false /\
  Example.parse Example.defaultGlobals (args Example.httpsLocal) =
    Ok [mkURL "https" "" "localhost:9000" "/d1" "" "";
        mkURL "https" "" "localhost:9000" "/d2" "" "";
        mkURL "https" "" "localhost:9000" "/d3" "" "";
        mkURL "https" "" "localhost:9000" "/d4" "" ""] /\
  Example.serverSyntax ["localhost"] Example.defaultGlobals Example.httpsLocal
    = Return tt.
Proof. repeat split; reflexivity. Qed.

Lemma checkServerSyntax_bind_address_match_witness :
  Example.serverSyntax ["node1"] Example.node1Globals Example.perDisk = Return tt /\
  foundCnt (address Example.perDisk)
    [mkURL "http" "" "node1:9000" "/d1" "" ""; mkURL "http" "" "node2:9000" "/d1" "" "";
     mkURL "http" "" "node3:9000" "/d1" "" ""; mkURL "http" "" "node4:9000" "/d1" "" ""]
    = 1.
Proof.
  split; [reflexivity|].
  refine (proj1 (checkServerSyntax_bind_address_match
                   Plain.url_Parse Plain.URL_String "linux"
                   Plain.minErasureBlocks Plain.maxErasureBlocks
                   (Plain.isLocalStorage ["node1"]) Plain.checkDuplicateEndpoints
                   Plain.error_text Example.node1Globals Example.perDisk
                   "node1" "9000" None _ _ _ _ _) _).
  - reflexivity.
  - discriminate.
  - reflexivity.
  - reflexivity.
  - reflexivity.
Defined.

(** The second example of the command's help: a bind address with a host
    and a local path.  No endpoint has the bind address as its host, and the
    validation succeeds. *)
Lemma checkServerSyntax_bind_address_local_accepted :
  net_SplitHostPort (address Example.boundLocal) = ("192.168.1.101", "9000", None) /\
  Example.parse Example.boundGlobals (args Example.boundLocal)
    = Ok [Example.disk "/home/shared"] /\
  foundCnt (address Example.boundLocal) [Example.disk "/home/shared"] = 0 /\
  Example.serverSyntax [] Example.boundGlobals Example.boundLocal = Return tt.
Proof. repeat split; reflexivity. Qed.

Lemma sort_byHostPath_deterministic_witness :
  Example.sortEndpoints [Example.disk "/d2"; Example.disk "/d1"; Example.disk "/d3"] =
  Example.sortEndpoints [Example.disk "/d3"; Example.disk "/d2"; Example.disk "/d1"].
Proof.
  refine (proj2 (sort_byHostPath_deterministic Example.sortEndpoints _ _
                   [Example.disk "/d2"; Example.disk "/d1"; Example.disk "/d3"]
                   [Example.disk "/d3"; Example.disk "/d2"; Example.disk "/d1"] _) _).
  - intros l. apply insertionSort_permutes.
  - exact insertionSort_byHostPath_inOrder.
  - apply Permutation_sym.
    apply (perm_trans (l' := [Example.disk "/d2"; Example.disk "/d3"; Example.disk "/d1"])).
    + apply perm_swap.
    + apply perm_skip. apply perm_swap.
  - simpl. repeat constructor; simpl; intuition discriminate.
Defined.

(** The same endpoints given in two orders on the command line, both
    accepted by [checkServerSyntax], are left in two different orders:
    endpoints that share host and path stay in the order of the input. *)
Lemma sort_byHostPath_keeps_input_order_of_ties :
  Permutation (args Example.mixedA) (args Example.mixedB) /\
  Example.serverSyntax ["node1"] Example.sslGlobals Example.mixedA = Return tt /\
  Example.serverSyntax ["node1"] Example.sslGlobals Example.mixedB = Return tt /\
  (exists endpointsA endpointsB,
      Example.parse Example.sslGlobals (args Example.mixedA) = Ok endpointsA /\
      Example.parse Example.sslGlobals (args Example.mixedB) = Ok endpointsB /\
      Permutation endpointsA endpointsB /\
      Example.sortEndpoints endpointsA <> Example.sortEndpoints endpointsB).
Proof.
  split; [|split; [reflexivity | split; [reflexivity|]]].
  - simpl. apply perm_trans with
      (l' := ["https://node1/d1"; "http://node1/d1"; "http://node2/d1"; "https://node2/d1"]).
    + apply perm_swap.
    + do 2 apply perm_skip. apply perm_swap.
  - eexists. eexists. split; [reflexivity|]. split; [reflexivity|]. split.
    + eapply perm_trans; [apply perm_swap|].
      do 2 apply perm_skip. apply perm_swap.
    + vm_compute. discriminate.
Qed.

Lemma serverMain_no_local_endpoint_witness :
  snd (Example.main [] Example.defaultGlobals Example.remoteFour) =
    Fatal errInvalidArgument
      "None of the disks passed as command line args are local to this server.".
Proof.
  refine (proj2 (proj2 (proj2 (serverMain_no_local_endpoint
            Plain.url_Parse Plain.URL_String "linux"
            Plain.minErasureBlocks Plain.maxErasureBlocks
            (Plain.isLocalStorage []) Plain.checkDuplicateEndpoints
            Plain.error_text Example.sortEndpoints
            unit unit unit unit
            (fun _ => None) None false None
            (fun eps => Ok (List.map (fun _ => tt) eps))
            (fun _ => None) (fun _ => Ok tt) (fun _ => None) (fun _ => Ok tt)
            (fun _ _ disks => Ok disks) (fun _ => Ok tt)
            Example.defaultGlobals Example.remoteFour _))) "" "9000" _ _ _ _).
  - intros host port endpoints Hhp Hparse.
    vm_compute in Hhp. injection Hhp as <- <-.
    vm_compute in Hparse. injection Hparse as <-. reflexivity.
  - discriminate.
  - discriminate.
  - reflexivity.
  - reflexivity.
Defined.

(** ** Further properties of [parseStorageEndpoints] *)

Lemma net_JoinHostPort_not_empty (host port : string) :
  net_JoinHostPort host port <> "".
Proof.
  destruct (net_JoinHostPort_carriesPort host port) as [name ->].
  destruct name; discriminate.
Qed.

Section ParseMore.

Variable url_Parse : string -> result URL.
Variable g : Globals.

Local Abbreviation parseOne := (parseStorageEndpoint url_Parse g).
Local Abbreviation parseFrom := (parseStorageEndpoints_from url_Parse g).
Local Abbreviation parse := (parseStorageEndpoints url_Parse g).

(** The endpoints appended so far only prefix the result. *)
Lemma parseStorageEndpoints_from_acc (eps : list string) :
  forall acc : list URL,
    parseFrom acc eps =
    match parse eps with
    | Ok parsed => Ok (acc ++ parsed)%list
    | Failed e => Failed e
    end.
Proof.
  unfold parseStorageEndpoints.
  induction eps as [|ep rest IH]; intros acc; simpl.
  - now rewrite List.app_nil_r.
  - destruct (parseOne ep) as [u|e]; [|reflexivity].
    rewrite (IH (acc ++ [u])%list), (IH [u]).
    destruct (parseFrom [] rest); [|reflexivity].
    now rewrite <- List.app_assoc.
Qed.

(** X1. Parsing a concatenation of two argument lists is parsing each and
    concatenating the endpoints; the error of the first list, if any, wins
    over that of the second. *)
Theorem parseStorageEndpoints_app (l1 l2 : list string) :
  parse (l1 ++ l2) =
  match parse l1 with
  | Failed e => Failed e
  | Ok e1 =>
      match parse l2 with
      | Failed e => Failed e
      | Ok e2 => Ok (e1 ++ e2)%list
      end
  end.
Proof.
  induction l1 as [|ep rest IH].
  - simpl. destruct (parse l2); reflexivity.
  - unfold parseStorageEndpoints at 1 2. simpl.
    destruct (parseOne ep) as [u|e]; [|reflexivity].
    rewrite !parseStorageEndpoints_from_acc, IH.
    destruct (parse rest) as [e1|e]; [|reflexivity].
    destruct (parse l2); reflexivity.
Qed.

(** X2. A list with an empty token is rejected as a whole, and the error
    is [errInvalidArgument] when the tokens before it are accepted. *)
Theorem parseStorageEndpoints_empty_token (eps : list string) :
  In "" eps ->
  (exists e, parse eps = Failed e) /\
  (forall pre post,
      eps = (pre ++ "" :: post)%list ->
      (forall x, In x pre -> exists v, parseOne x = Ok v) ->
      parse eps = Failed errInvalidArgument).
Proof.
  intros Hin. split.
  - eapply parseStorageEndpoints_from_rejects; [exact Hin | reflexivity].
  - intros pre post -> Hpre.
    apply parseStorageEndpoints_from_first; [exact Hpre | reflexivity].
Qed.

(** What an accepted token turns into. *)
Lemma parseStorageEndpoint_accepts (ep : string) (u : URL) :
  parseOne ep = Ok u ->
  ep <> "" /\
  exists u0, url_Parse ep = Ok u0 /\
    (u = u0 \/
     (Host u0 <> "" /\ globalMinioHost g = "" /\
      u = URL_withHost u0 (net_JoinHostPort (Host u0) (globalMinioPort g)))) /\
    (globalMinioHost g <> "" -> Host u0 <> "" ->
     exists h port, net_SplitHostPort (Host u0) = (h, port, None) /\ port <> "").
Proof.
  unfold parseStorageEndpoint.
  destruct (String.eqb_spec ep ""); [discriminate|].
  destruct (url_Parse ep) as [u0|e0]; [|discriminate].
  intros H. split; [assumption|]. exists u0. split; [reflexivity|].
  destruct (String.eqb_spec (Host u0) ""); simpl in H.
  - injection H as <-. split; [now left | contradiction].
  - destruct (net_SplitHostPort (Host u0)) as [[h port] err] eqn:Hsplit.
    destruct err as [err|].
    + destruct (net_SplitHostPort_error _ _ _ _ Hsplit) as [-> ->].
      destruct (negb (GoString.Contains _ _)); [discriminate|].
      destruct (String.eqb_spec (globalMinioHost g) ""); simpl in H; [|discriminate].
      injection H as <-. split; [right; auto | contradiction].
    + destruct (String.eqb_spec (globalMinioHost g) "").
      * destruct (String.eqb_spec port ""); simpl in H; [|discriminate].
        injection H as <-. split; [right; auto | contradiction].
      * destruct (String.eqb_spec port ""); [discriminate|].
        injection H as <-. split; [now left|].
        intros _ _. exists h, port. auto.
Qed.

(** X3. On success there is one endpoint per token, in the order of the
    tokens; each keeps the scheme, the opaque part, the path, the query and
    the fragment that [url.Parse] gave, and has a host exactly when the
    parsed URL had one. *)
Theorem parseStorageEndpoints_keeps_url (eps : list string) (endpoints : list URL) :
  parse eps = Ok endpoints ->
  Forall2 (fun ep u =>
             ep <> "" /\
             exists u0, url_Parse ep = Ok u0 /\
               Scheme u = Scheme u0 /\ Opaque u = Opaque u0 /\ Path u = Path u0 /\
               RawQuery u = RawQuery u0 /\ Fragment u = Fragment u0 /\
               (Host u = "" <-> Host u0 = ""))
          eps endpoints.
Proof.
  intros H. apply parseStorageEndpoints_ok in H.
  induction H as [|ep u eps endpoints Hone _ IH]; constructor; [|exact IH].
  destruct (parseStorageEndpoint_accepts ep u Hone) as (Hne & u0 & Hp & Hu & _).
  split; [assumption|]. exists u0. split; [assumption|].
  destruct Hu as [->|(Hh & _ & ->)].
  - repeat split; auto.
  - simpl. repeat split; try reflexivity.
    + intros Hj. now apply net_JoinHostPort_not_empty in Hj.
    + intros Hj. contradiction.
Qed.

(** X4. With a bind host fixed, the endpoints returned are the URLs of
    [url.Parse] unchanged, and the host of every networked one splits into
    a host and a non-empty port. *)
Theorem parseStorageEndpoints_bind_host_fixed (eps : list string) (endpoints : list URL) :
  globalMinioHost g <> "" ->
  parse eps = Ok endpoints ->
  Forall2 (fun ep u =>
             url_Parse ep = Ok u /\
             (Host u <> "" ->
              exists h port, net_SplitHostPort (Host u) = (h, port, None) /\ port <> ""))
          eps endpoints.
Proof.
  intros Hg H. apply parseStorageEndpoints_ok in H.
  induction H as [|ep u eps endpoints Hone _ IH]; constructor; [|exact IH].
  destruct (parseStorageEndpoint_accepts ep u Hone) as (_ & u0 & Hp & Hu & Hport).
  destruct Hu as [->|(_ & Hempty & _)]; [|contradiction].
  split; [assumption|]. intros Hh. now apply Hport.
Qed.

End ParseMore.

(** ** Further properties of [checkSufficientDisks] *)

(** X5. [checkSufficientDisks] looks only at the number of endpoints: it
    succeeds exactly on an even number within the bounds, answers
    [errXLMaxDisks] exactly above the upper bound, [errXLMinDisks] exactly
    below the lower bound when the upper one holds, and [errXLNumDisks]
    exactly on an odd number within the bounds. *)
Theorem checkSufficientDisks_classes (minErasureBlocks maxErasureBlocks : Z)
    (eps : list URL) :
  let check := checkSufficientDisks minErasureBlocks maxErasureBlocks eps in
  let total := Z.of_nat (List.length eps) in
  (check = None <->
     minErasureBlocks <= total <= maxErasureBlocks /\ Z.even total = true)
  /\ (check = Some errXLMaxDisks <-> maxErasureBlocks < total)
  /\ (check = Some errXLMinDisks <->
      total <= maxErasureBlocks /\ total < minErasureBlocks)
  /\ (check = Some errXLNumDisks <->
      minErasureBlocks <= total <= maxErasureBlocks /\ Z.odd total = true).
Proof.
  intros check total. unfold check, checkSufficientDisks. fold total.
  assert (Hrem : (Z.rem total 2 =? 0) = Z.even total).
  { rewrite Z.rem_mod_nonneg by (unfold total; lia). rewrite Zmod_even.
    destruct (Z.even total); reflexivity. }
  rewrite Hrem.
  assert (Hodd : Z.odd total = negb (Z.even total)) by (symmetry; apply Z.negb_even).
  rewrite Hodd.
  destruct (Z.ltb_spec maxErasureBlocks total) as [H1|H1];
    [|destruct (Z.ltb_spec total minErasureBlocks) as [H2|H2];
      [|destruct (Z.even total); simpl]];
    repeat split; intros; try discriminate; try lia; try tauto;
    repeat match goal with H : _ /\ _ |- _ => destruct H end;
    try lia; try discriminate; auto.
Qed.

(** ** Locality of the endpoints *)

Section Locality.

Variable isLocalStorage : Globals -> URL -> bool.
Variable g : Globals.

Local Abbreviation distributed := (isDistributedSetup isLocalStorage g).
Local Abbreviation anyLocal := (isAnyEndpointLocal isLocalStorage g).

Lemma isDistributedSetup_exists (eps : list URL) :
  distributed eps = true <-> exists ep, In ep eps /\ isLocalStorage g ep = false.
Proof.
  induction eps as [|ep rest IH]; simpl.
  - split; [discriminate | intros (x & [] & _)].
  - destruct (isLocalStorage g ep) eqn:Hl; simpl.
    + rewrite IH. split; intros (x & Hin & Hx); exists x.
      * auto.
      * destruct Hin as [<-|Hin]; [congruence | auto].
    + split; [|reflexivity]. intros _. exists ep. auto.
Qed.

Lemma isAnyEndpointLocal_exists (eps : list URL) :
  anyLocal eps = true <-> exists ep, In ep eps /\ isLocalStorage g ep = true.
Proof.
  induction eps as [|ep rest IH]; simpl.
  - split; [discriminate | intros (x & [] & _)].
  - destruct (isLocalStorage g ep) eqn:Hl.
    + split; [|reflexivity]. intros _. exists ep. auto.
    + rewrite IH. split; intros (x & Hin & Hx); exists x.
      * auto.
      * destruct Hin as [<-|Hin]; [congruence | auto].
Qed.

Lemma bool_eq_iff (a b : bool) : (a = true <-> b = true) -> a = b.
Proof.
  destruct a, b; intros [H1 H2]; try reflexivity.
  - symmetry. now apply H1.
  - now apply H2.
Qed.

(** X6. Whether the setup is distributed, and whether any endpoint is
    local, does not depend on the order of the endpoints: sorting them
    changes neither answer. *)
Theorem locality_permutation (l1 l2 : list URL) :
  Permutation l1 l2 ->
  distributed l1 = distributed l2 /\ anyLocal l1 = anyLocal l2.
Proof.
  intros Hperm. split; apply bool_eq_iff.
  - rewrite !isDistributedSetup_exists.
    split; intros (x & Hin & Hx); exists x; split; auto.
    + eapply Permutation_in; eauto.
    + eapply Permutation_in; [symmetry|]; eauto.
  - rewrite !isAnyEndpointLocal_exists.
    split; intros (x & Hin & Hx); exists x; split; auto.
    + eapply Permutation_in; eauto.
    + eapply Permutation_in; [symmetry|]; eauto.
Qed.

(** X7. Of a non-empty endpoint list at least one of the two holds: the
    setup is distributed, or some endpoint is local.  So a list with no
    local endpoint is a distributed setup, and a setup that is not
    distributed has a local endpoint. *)
Theorem distributed_or_local (eps : list URL) :
  eps <> [] ->
  (anyLocal eps = false -> distributed eps = true) /\
  (distributed eps = false -> anyLocal eps = true).
Proof.
  intros Hne. destruct eps as [|ep rest]; [now elim Hne|].
  simpl. destruct (isLocalStorage g ep); simpl; split; auto; discriminate.
Qed.

End Locality.

(** ** Further properties of [checkEndpointsSyntax] *)

Section SyntaxOfEndpoints.

Variable URL_String : URL -> string.
Variable GOOS : string.
Variable error_text : error -> string.

Local Abbreviation checkURL := (checkEndpointURL URL_String GOOS).
Local Abbreviation syntaxFrom := (checkEndpointsSyntax_from URL_String GOOS error_text).
Local Abbreviation syntaxOf := (checkEndpointsSyntax URL_String GOOS error_text).

Lemma checkEndpointsSyntax_from_accepts (eps : list URL) :
  forall (i : nat) (disks : list string),
    syntaxFrom i eps disks = Return None <->
    Forall (fun u => checkURL u = Return None) eps.
Proof.
  induction eps as [|u rest IH]; intros i disks; simpl.
  - split; [constructor | reflexivity].
  - destruct (checkURL u) as [[err|]| | |] eqn:Hu; simpl.
    + destruct (List.nth_error disks i); split; try discriminate;
        intros H; inversion H; congruence.
    + rewrite IH. split; [now constructor | intros H; now inversion H].
    + split; [discriminate | intros H; inversion H; congruence].
    + split; [discriminate | intros H; inversion H; congruence].
    + split; [discriminate | intros H; inversion H; congruence].
Qed.

(** X8. The endpoints have a valid syntax exactly when each of them passes
    [checkEndpointURL]; the tokens are not consulted for that. *)
Theorem checkEndpointsSyntax_accepts (eps : list URL) (disks : list string) :
  syntaxOf eps disks = Return None <->
  Forall (fun u => checkURL u = Return None) eps.
Proof. apply checkEndpointsSyntax_from_accepts. Qed.

Lemma checkEndpointsSyntax_from_first (pre : list URL) :
  forall (i : nat) (u : URL) (post : list URL) (disks : list string) (err : error),
    Forall (fun v => checkURL v = Return None) pre ->
    checkURL u = Return (Some err) ->
    syntaxFrom i (pre ++ u :: post) disks =
    match List.nth_error disks (i + List.length pre) with
    | Some disk =>
        Return (Some (Errorf (error_Error error_text err ++ ": " ++ Path u ++
                              " (" ++ disk ++ ")")))
    | None => Panic
    end.
Proof.
  induction pre as [|v pre IH]; intros i u post disks err Hpre Hu; simpl.
  - rewrite Hu. simpl. now rewrite Nat.add_0_r.
  - inversion Hpre as [|? ? Hv Hpre']; subst. rewrite Hv. simpl.
    rewrite (IH (S i) u post disks err Hpre' Hu).
    now rewrite Nat.add_succ_r.
Qed.

(** X9. The first endpoint that fails [checkEndpointURL] decides the
    result: the error returned joins the text of its error, its path and
    the token at its own position; without a token at that position the
    check panics. *)
Theorem checkEndpointsSyntax_first_failure (pre : list URL) (u : URL)
    (post : list URL) (disks : list string) (err : error) :
  Forall (fun v => checkURL v = Return None) pre ->
  checkURL u = Return (Some err) ->
  syntaxOf (pre ++ u :: post) disks =
  match List.nth_error disks (List.length pre) with
  | Some disk =>
      Return (Some (Errorf (error_Error error_text err ++ ": " ++ Path u ++
                            " (" ++ disk ++ ")")))
  | None => Panic
  end.
Proof.
  intros Hpre Hu. unfold checkEndpointsSyntax.
  now rewrite (checkEndpointsSyntax_from_first pre 0 u post disks err Hpre Hu).
Qed.

End SyntaxOfEndpoints.

(** ** Further properties of [checkServerSyntax] *)

Section SyntaxMore.

Variable url_Parse : string -> result URL.
Variable URL_String : URL -> string.
Variable GOOS : string.
Variables minErasureBlocks maxErasureBlocks : Z.
Variable isLocalStorage : Globals -> URL -> bool.
Variable checkDuplicateEndpoints : list URL -> option error.
Variable error_text : error -> string.
Variable g : Globals.

Local Abbreviation parse := (parseStorageEndpoints url_Parse g).
Local Abbreviation syntaxOf := (checkEndpointsSyntax URL_String GOOS error_text).
Local Abbreviation distributed := (isDistributedSetup isLocalStorage g).
Local Abbreviation sizeOf := (sizeCheck minErasureBlocks maxErasureBlocks).
Local Abbreviation serverSyntax :=
  (checkServerSyntax url_Parse URL_String GOOS minErasureBlocks maxErasureBlocks
     isLocalStorage checkDuplicateEndpoints error_text g).
Local Abbreviation localChecks :=
  (passesLocalChecks url_Parse URL_String GOOS minErasureBlocks maxErasureBlocks
     checkDuplicateEndpoints error_text g).
Local Abbreviation laterChecks := (distributedChecks isLocalStorage g).

(** The stage after the local checks on a distributed setup, by cases. *)
Lemma distributedChecks_cases (serverAddr host portStr : string) (endpoints : list URL) :
  distributed endpoints = true ->
  laterChecks serverAddr host portStr endpoints =
  if negb (String.eqb host "") && String.eqb portStr "" then
    Fatal errInvalidArgument "Port missing, Host:Port should be specified for --address"
  else if negb (String.eqb host "") && (foundCnt serverAddr endpoints =? 0) then
    Fatal errInvalidArgument "%s is not available in %s"
  else if negb (String.eqb host "") && (1 <? foundCnt serverAddr endpoints) then
    Fatal errInvalidArgument "%s matches % entries in %s"
  else if hasHTTPS endpoints && negb (globalIsSSL g) then
    Fatal errInvalidArgument "Certificates not provided for secure configuration"
  else Return tt.
Proof.
  intros Hdist. unfold distributedChecks. rewrite forEach_https, Hdist. simpl.
  destruct (String.eqb host ""); simpl; [reflexivity|].
  destruct (String.eqb portStr ""); simpl; [reflexivity|].
  destruct (foundCnt serverAddr endpoints =? 0); simpl; [reflexivity|].
  destruct (1 <? foundCnt serverAddr endpoints); reflexivity.
Qed.

(** The local checks decide the run, or hand it to the later stage. *)
Lemma checkServerSyntax_by_stage (c : Context) :
  (exists host portStr endpoints,
      localChecks c host portStr endpoints /\
      serverSyntax c = laterChecks (address c) host portStr endpoints)
  \/ serverSyntax c = Panic
  \/ (exists e t, serverSyntax c = Fatal e t /\
        (t = "Unable to parse %s." /\
         (exists h p a, net_SplitHostPort (address c) = (h, p, Some a))
         \/ t = "Unable to parse storage endpoints %s"
         \/ t = "Invalid endpoints found %s" \/ t = "Duplicate entries in %s"
         \/ t = "Invalid number of disks supplied."
         \/ t = "%s, FS setup expects a filesystem path")).
Proof.
  destruct (parse (args c)) as [endpoints|e] eqn:Hparse.
  - destruct (checkServerSyntax_local_or_later url_Parse URL_String GOOS
                minErasureBlocks maxErasureBlocks isLocalStorage
                checkDuplicateEndpoints error_text g c endpoints Hparse)
      as [(host & portStr & Hloc & Heq) | [Hp | (e & t & Heq & Ht)]].
    + left. eauto.
    + auto.
    + right; right. exists e, t. split; [exact Heq|].
      destruct Ht as [Ht|[Ht|[Ht|[[Ht _]|[Ht _]]]]];
        [ | right; right; left; exact Ht | do 3 right; left; exact Ht
          | do 4 right; left; exact Ht | do 5 right; exact Ht ].
      left. split; [exact Ht|]. subst t.
      rewrite checkServerSyntax_stages in Heq.
      destruct (net_SplitHostPort (address c)) as [[h p] [a|]]; [eauto|].
      exfalso. rewrite Hparse in Heq.
      unfold checkEndpointsSyntax in Heq.
      destruct (checkEndpointsSyntax_from_outcome URL_String GOOS error_text
                  endpoints 0 (args c)) as [[r Hr]|Hr];
        rewrite Hr in Heq; [|discriminate Heq].
      destruct r as [e'|]; [discriminate Heq|].
      destruct (checkDuplicateEndpoints endpoints); [discriminate Heq|].
      unfold sizeCheck in Heq. destruct (1 <? _).
      * destruct (checkSufficientDisks _ _ _); simpl in Heq; [discriminate Heq|].
        apply distributedChecks_outcome in Heq.
        destruct Heq as [H|[H|[H|[H|H]]]]; discriminate H.
      * destruct endpoints as [|e0 rest]; [discriminate Heq|].
        destruct (_ && _); simpl in Heq; [discriminate Heq|].
        apply distributedChecks_outcome in Heq.
        destruct Heq as [H|[H|[H|[H|H]]]]; discriminate H.
  - right; right. rewrite checkServerSyntax_stages.
    destruct (net_SplitHostPort (address c)) as [[h p] [a|]].
    + exists (ErrAddr a), "Unable to parse %s.". split; [reflexivity|].
      left. eauto.
    + rewrite Hparse. exists e, "Unable to parse storage endpoints %s". auto.
Qed.

(** X10. [checkServerSyntax] accepts the command line exactly when the
    local checks pass and, on a distributed setup, the bind address has no
    host or has a port and is the host of exactly one endpoint, and
    certificates are loaded if an endpoint asks for [https]. *)
Theorem checkServerSyntax_accepts (c : Context) :
  serverSyntax c = Return tt <->
  exists host portStr endpoints,
    localChecks c host portStr endpoints /\
    (distributed endpoints = true ->
     (host = "" \/ (portStr <> "" /\ foundCnt (address c) endpoints = 1)) /\
     (hasHTTPS endpoints = true -> globalIsSSL g = true)).
Proof.
  split.
  - intros Hret.
    destruct (checkServerSyntax_by_stage c)
      as [(host & portStr & endpoints & Hloc & Heq) | [Hp | (e & t & Heq & _)]];
      try congruence.
    exists host, portStr, endpoints. split; [exact Hloc|].
    intros Hdist. rewrite Heq in Hret.
    exact (distributedChecks_ok isLocalStorage g _ _ _ _ Hdist Hret).
  - intros (host & portStr & endpoints & Hloc & Hlater).
    rewrite (checkServerSyntax_after_local _ _ _ _ _ _ _ _ _ _ _ _ _ Hloc).
    destruct (distributed endpoints) eqn:Hdist.
    + destruct (Hlater eq_refl) as [Hbind Hssl].
      rewrite (distributedChecks_cases _ _ _ _ Hdist).
      assert (Hs : hasHTTPS endpoints && negb (globalIsSSL g) = false).
      { destruct (hasHTTPS endpoints); [|reflexivity].
        rewrite (Hssl eq_refl). reflexivity. }
      rewrite Hs.
      destruct Hbind as [->|[Hport Hcnt]]; [reflexivity|].
      apply String.eqb_neq in Hport. rewrite Hport, Hcnt.
      now rewrite !Bool.andb_false_r.
    + now apply distributedChecks_local.
Qed.

(** X11. On a distributed setup, a bind address with a host and an empty
    port ("host:") ends the run with "Port missing", whatever the
    endpoints are. *)
Theorem checkServerSyntax_port_missing (c : Context) (host : string)
    (endpoints : list URL) :
  localChecks c host "" endpoints -> host <> "" -> distributed endpoints = true ->
  serverSyntax c =
    Fatal errInvalidArgument "Port missing, Host:Port should be specified for --address".
Proof.
  intros Hloc Hhost Hdist.
  rewrite (checkServerSyntax_after_local _ _ _ _ _ _ _ _ _ _ _ _ _ Hloc).
  rewrite (distributedChecks_cases _ _ _ _ Hdist).
  apply String.eqb_neq in Hhost. now rewrite Hhost.
Qed.

(** X12. Without arguments [checkServerSyntax] does not return: once the
    bind address splits and the duplicate check lets the empty list
    through, the index into the endpoints panics. *)
Theorem checkServerSyntax_no_arguments (c : Context) (host portStr : string) :
  args c = [] ->
  net_SplitHostPort (address c) = (host, portStr, None) ->
  checkDuplicateEndpoints [] = None ->
  serverSyntax c = Panic.
Proof.
  intros Hargs Hsplit Hdup.
  rewrite checkServerSyntax_stages, Hsplit, Hargs. simpl. now rewrite Hdup.
Qed.

(** Where the two fatal exits about the bind address come from. *)
Lemma checkServerSyntax_bind_fatal (c : Context) (e : error) :
  (serverSyntax c = Fatal e "Unable to parse %s." ->
   exists h p a, net_SplitHostPort (address c) = (h, p, Some a))
  /\ (serverSyntax c =
        Fatal e "Port missing, Host:Port should be specified for --address" ->
      exists h, net_SplitHostPort (address c) = (h, "", None)).
Proof.
  destruct (checkServerSyntax_by_stage c)
    as [(host & portStr & endpoints & Hloc & Heq) | [Hp | (e' & t & Heq & Ht)]].
  - rewrite Heq. destruct Hloc as (Hsplit & _).
    destruct (distributed endpoints) eqn:Hdist.
    + rewrite (distributedChecks_cases _ _ _ _ Hdist).
      destruct (String.eqb_spec portStr "") as [->|Hp].
      * split; [|eauto].
        destruct (negb (String.eqb host "")); simpl;
          repeat (match goal with |- context [if ?b then _ else _] => destruct b end);
          discriminate.
      * rewrite Bool.andb_false_r.
        split;
          repeat (match goal with |- context [if ?b then _ else _] => destruct b end);
          discriminate.
    + rewrite (distributedChecks_local _ _ _ _ _ _ Hdist). split; discriminate.
  - rewrite Hp. split; discriminate.
  - rewrite Heq. split; intros H; injection H as -> ->.
    + destruct Ht as [[_ Ht]|[Ht|[Ht|[Ht|[Ht|Ht]]]]]; try discriminate Ht. exact Ht.
    + destruct Ht as [[Ht _]|[Ht|[Ht|[Ht|[Ht|Ht]]]]]; discriminate Ht.
Qed.

End SyntaxMore.

(** ** Properties of [getHostPort] *)

Section HostPort.

Variable checkPortAvailability : string -> option error.

Local Abbreviation hostPort := (getHostPort checkPortAvailability).

(** What a successful [getHostPort] went through. *)
Lemma getHostPort_split (address host port : string) :
  hostPort address = (host, port, None) ->
  net_SplitHostPort address = (host, port, None) /\ port <> "" /\ port <> "0" /\
  (exists n, GoStrconv.Atoi port = Ok n) /\ checkPortAvailability port = None.
Proof.
  unfold getHostPort.
  destruct (net_SplitHostPort address) as [[h p] [a|]]; [discriminate|].
  destruct (String.eqb_spec p "0") as [|Hzero]; [discriminate|].
  destruct (String.eqb_spec p "") as [|Hempty]; [discriminate|]. simpl.
  destruct (GoStrconv.Atoi p) as [n|e] eqn:Hatoi; [|discriminate].
  destruct (checkPortAvailability p) eqn:Hfree; [discriminate|].
  intros H. injection H as <- <-. repeat split; eauto.
Qed.

(** X13. [getHostPort] succeeds exactly when the address splits without
    error, the port is neither empty nor "0", reads as a decimal number and
    is available; it then returns the host and port of the split. *)
Theorem getHostPort_succeeds (address host port : string) :
  hostPort address = (host, port, None) <->
  net_SplitHostPort address = (host, port, None) /\ port <> "" /\ port <> "0" /\
  (exists n, GoStrconv.Atoi port = Ok n) /\ checkPortAvailability port = None.
Proof.
  split; [apply getHostPort_split|].
  intros (Hsplit & Hne & Hnz & (n & Hn) & Hfree).
  unfold getHostPort. rewrite Hsplit.
  apply String.eqb_neq in Hne. apply String.eqb_neq in Hnz.
  now rewrite Hne, Hnz, Hn, Hfree.
Qed.

(** X14. On every error [getHostPort] returns an empty host and an empty
    port; an address whose port is empty or "0" is answered with
    [errEmptyPort], before the port is read as a number or probed. *)
Theorem getHostPort_fails (address : string) :
  (forall host port e, hostPort address = (host, port, Some e) ->
                       host = "" /\ port = "")
  /\ (forall host port,
        net_SplitHostPort address = (host, port, None) ->
        port = "" \/ port = "0" ->
        hostPort address = ("", "", Some errEmptyPort)).
Proof.
  split.
  - intros host port e. unfold getHostPort.
    destruct (net_SplitHostPort address) as [[h p] [a|]].
    + intros H. injection H as <- <- _. auto.
    + destruct (_ || _); [intros H; injection H as <- <- _; auto|].
      destruct (GoStrconv.Atoi p); [|intros H; injection H as <- <- _; auto].
      destruct (checkPortAvailability p); [|discriminate].
      intros H. injection H as <- <- _. auto.
  - intros host port Hsplit Hport. unfold getHostPort. rewrite Hsplit.
    destruct Hport as [->| ->]; reflexivity.
Qed.

End HostPort.

(** ** Further properties of [serverMain] *)

Section StartupMore.

Variable url_Parse : string -> result URL.
Variable URL_String : URL -> string.
Variable GOOS : string.
Variables minErasureBlocks maxErasureBlocks : Z.
Variable isLocalStorage : Globals -> URL -> bool.
Variable checkDuplicateEndpoints : list URL -> option error.
Variable error_text : error -> string.
Variable sort_byHostPath : list URL -> list URL.
Variables StorageAPI Handler APIEndpoints ObjectLayer : Type.
Variable checkPortAvailability : string -> option error.
Variable createCertsPath : option error.
Variable envCredentials : bool.
Variable serverConfig_Save : option error.
Variable initStorageDisks : list URL -> result (list StorageAPI).
Variable houseKeeping : list StorageAPI -> option error.
Variable configureServerHandler : serverCmdConfig StorageAPI -> result Handler.
Variable initDsyncNodes : list URL -> option error.
Variable finalizeAPIEndpoints : string -> result APIEndpoints.
Variable waitForFormatDisks :
  bool -> list URL -> list StorageAPI -> result (list StorageAPI).
Variable newObjectLayer : list StorageAPI -> result ObjectLayer.

Local Abbreviation main :=
  (serverMain url_Parse URL_String GOOS minErasureBlocks maxErasureBlocks
     isLocalStorage checkDuplicateEndpoints error_text sort_byHostPath
     StorageAPI Handler APIEndpoints ObjectLayer checkPortAvailability
     createCertsPath envCredentials serverConfig_Save initStorageDisks
     houseKeeping configureServerHandler initDsyncNodes finalizeAPIEndpoints
     waitForFormatDisks newObjectLayer).
Local Abbreviation serverSyntax :=
  (checkServerSyntax url_Parse URL_String GOOS minErasureBlocks maxErasureBlocks
     isLocalStorage checkDuplicateEndpoints error_text).

Lemma asksForHelp_test (c : Context) :
  negb (0 <? Z.of_nat (List.length (args c)))
  || String.eqb (List.hd "" (args c)) "help" = true <-> asksForHelp c.
Proof.
  unfold asksForHelp. rewrite Bool.orb_true_iff, String.eqb_eq.
  destruct (args c); simpl; split; intros [H|H]; auto; discriminate.
Qed.

Ltac run_step :=
  lazymatch goal with
  | |- context [initStorageDisks ?x] => destruct (initStorageDisks x)
  | |- context [houseKeeping ?x] => destruct (houseKeeping x)
  | |- context [configureServerHandler ?x] => destruct (configureServerHandler x)
  | |- context [initDsyncNodes ?x] => destruct (initDsyncNodes x)
  | |- context [finalizeAPIEndpoints ?x] => destruct (finalizeAPIEndpoints x)
  | |- context [waitForFormatDisks ?x ?y ?z] => destruct (waitForFormatDisks x y z)
  | |- context [newObjectLayer ?x] => destruct (newObjectLayer x)
  | |- context [if isDistributedSetup ?f ?g ?l then _ else _] =>
      destruct (isDistributedSetup f g l)
  end.

Ltac prefix_upto n :=
  lazymatch n with
  | O => fail "no prefix"
  | S ?m => first [exists m; reflexivity | prefix_upto m]
  end.

Ltac close_run :=
  split; [prefix_upto 30%nat
         | split; intros Hrun; first [discriminate Hrun | reflexivity]].

(** X18. Past the usage test every run of [serverMain] takes its steps in
    one fixed order: its events are a prefix of the complete start-up
    sequence (storage disks, housekeeping, server config, handler, lock
    nodes on a distributed setup, listener, format wait, object layer), and
    the run reaches the wait for shutdown exactly when the sequence is
    complete. *)
Theorem serverMain_steps_in_order (g0 : Globals) (c : Context) :
  ~ asksForHelp c ->
  let g := mkGlobals (fst (fst (getHostPort checkPortAvailability (address c))))
                     (snd (fst (getHostPort checkPortAvailability (address c))))
                     (globalIsSSL g0) in
  let sorted := match parseStorageEndpoints url_Parse g (args c) with
                | Ok endpoints => sort_byHostPath endpoints
                | Failed _ => []
                end in
  let boot := bootSequence (address c) sorted envCredentials
                (isDistributedSetup isLocalStorage g sorted)
                (match sorted with e0 :: _ => isLocalStorage g e0 | [] => false end)
                (globalIsSSL g0) in
  (exists k, fst (main g0 c) = List.firstn k boot)
  /\ (snd (main g0 c) = Return tt <-> fst (main g0 c) = boot).
Proof.
  intros Hhelp g sorted boot.
  unfold serverMain.
  destruct (negb (0 <? Z.of_nat (List.length (args c)))
            || String.eqb (List.hd "" (args c)) "help") eqn:Husage.
  { apply asksForHelp_test in Husage. contradiction. }
  subst boot sorted g.
  destruct (getHostPort checkPortAvailability (address c)) as [[host port] [e|]];
    cbn [fst snd]; unfold bootSequence.
  { cbn. close_run. }
  destruct (serverSyntax (mkGlobals host port (globalIsSSL g0)) c) as [[]|e t|n|];
    cbn [lift emit pbind fatalIf app fst snd].
  2,3,4: (destruct (parseStorageEndpoints _ _ _); cbn; close_run).
  destruct (parseStorageEndpoints url_Parse _ (args c)) as [endpoints|e];
    cbn [lift emit pbind fatalIf app fst snd]; [|cbn; close_run].
  destruct (isAnyEndpointLocal _ _ endpoints);
    cbn [negb lift emit pbind fatalIf app fst snd]; [|cbn; close_run].
  destruct (sort_byHostPath endpoints) as [|e0 rest].
  all: destruct (isDistributedSetup isLocalStorage _ _).
  all: destruct createCertsPath, envCredentials, serverConfig_Save.
  all: repeat (cbn [pbind call call_ lift emit fatalIf initServerConfig app fst snd];
               run_step).
  all: cbn; close_run.
Qed.
Lemma pbind_emit {B : Type} (e : event) (k : unit -> proc B) :
  pbind (emit e) k = (e :: fst (k tt), snd (k tt)).
Proof. unfold pbind, emit. destruct (k tt); reflexivity. Qed.

(** X16. [serverMain] shows the help of the command and exits with code 1,
    without any other step, exactly when no argument is given or the first
    one is "help". *)
Theorem serverMain_usage (g0 : Globals) (c : Context) :
  main g0 c = ([EvShowCommandHelp], Exit 1) <-> asksForHelp c.
Proof.
  unfold serverMain.
  destruct (negb (0 <? Z.of_nat (List.length (args c)))
            || String.eqb (List.hd "" (args c)) "help") eqn:Husage.
  - split; [intros _; now apply asksForHelp_test | reflexivity].
  - split.
    + rewrite pbind_emit. intros H. discriminate H.
    + intros H. apply asksForHelp_test in H. congruence.
Qed.

(** X17. Past the usage test, a bind address that [getHostPort] refuses, or
    a command line that [checkServerSyntax] does not accept, ends the run
    after [minioInit] and [checkUpdate] alone, with the error of the one or
    the outcome of the other. *)
Theorem serverMain_validation_failure (g0 : Globals) (c : Context) :
  ~ asksForHelp c ->
  (forall host port e,
      getHostPort checkPortAvailability (address c) = (host, port, Some e) ->
      main g0 c =
        ([EvMinioInit; EvCheckUpdate], Fatal e "Unable to extract host and port %s"))
  /\ (forall host port,
        getHostPort checkPortAvailability (address c) = (host, port, None) ->
        serverSyntax (mkGlobals host port (globalIsSSL g0)) c <> Return tt ->
        main g0 c =
          ([EvMinioInit; EvCheckUpdate],
           serverSyntax (mkGlobals host port (globalIsSSL g0)) c)).
Proof.
  intros Hhelp.
  assert (Husage : negb (0 <? Z.of_nat (List.length (args c)))
                   || String.eqb (List.hd "" (args c)) "help" = false).
  { destruct (_ || _) eqn:H; [|reflexivity].
    apply asksForHelp_test in H. contradiction. }
  unfold serverMain. rewrite Husage. split.
  - intros host port e ->. reflexivity.
  - intros host port -> Hsyn.
    destruct (serverSyntax (mkGlobals host port (globalIsSSL g0)) c) as [[]| | |];
      [now elim Hsyn | | |];
      destruct (parseStorageEndpoints _ _ _); reflexivity.
Qed.

(** X15. Once [getHostPort] has accepted the bind address,
    [checkServerSyntax] never ends on "Unable to parse" nor on "Port
    missing": its own tests of the bind address cannot fail. *)
Theorem serverMain_bind_address_settled (c : Context) (host port : string)
    (g : Globals) (e : error) :
  getHostPort checkPortAvailability (address c) = (host, port, None) ->
  serverSyntax g c <> Fatal e "Unable to parse %s." /\
  serverSyntax g c <>
    Fatal e "Port missing, Host:Port should be specified for --address".
Proof.
  intros Hhp. apply getHostPort_split in Hhp. destruct Hhp as (Hsplit & Hport & _).
  destruct (checkServerSyntax_bind_fatal url_Parse URL_String GOOS minErasureBlocks
              maxErasureBlocks isLocalStorage checkDuplicateEndpoints error_text
              g c e) as [Hparse Hmissing].
  split; intros H.
  - destruct (Hparse H) as (h & p & a & Ha). congruence.
  - destruct (Hmissing H) as (h & Hh). rewrite Hsplit in Hh.
    injection Hh as _ Hp. contradiction.
Qed.

(** X19. The second [parseStorageEndpoints] of [serverMain] cannot fail
    where the first one, inside [checkServerSyntax], succeeded: a run that
    ends on "Unable to parse storage endpoints" was ended by
    [checkServerSyntax]. *)
Theorem serverMain_second_parse (g0 : Globals) (c : Context) (host port : string)
    (e : error) :
  ~ asksForHelp c ->
  getHostPort checkPortAvailability (address c) = (host, port, None) ->
  snd (main g0 c) = Fatal e "Unable to parse storage endpoints %s" ->
  serverSyntax (mkGlobals host port (globalIsSSL g0)) c =
    Fatal e "Unable to parse storage endpoints %s".
Proof.
  intros Hhelp Hhp.
  assert (Husage : negb (0 <? Z.of_nat (List.length (args c)))
                   || String.eqb (List.hd "" (args c)) "help" = false).
  { destruct (_ || _) eqn:H; [|reflexivity].
    apply asksForHelp_test in H. contradiction. }
  unfold serverMain. rewrite Husage, Hhp.
  destruct (serverSyntax (mkGlobals host port (globalIsSSL g0)) c)
    as [[]|e' t|n|] eqn:Hsyn;
    cbn [lift emit pbind fatalIf app fst snd].
  2,3,4: (cbn; intros H; exact H).
  destruct (checkServerSyntax_by_stage url_Parse URL_String GOOS minErasureBlocks
              maxErasureBlocks isLocalStorage checkDuplicateEndpoints error_text
              (mkGlobals host port (globalIsSSL g0)) c)
    as [(h & p & endpoints & (_ & Hparse & _) & _) | [Hp | (e1 & t1 & Heq & _)]];
    try congruence.
  rewrite Hparse. cbn [lift emit pbind fatalIf app fst snd].
  destruct (isAnyEndpointLocal _ _ endpoints);
    cbn [negb lift emit pbind fatalIf app fst snd];
    [|cbn; intros H; discriminate H].
  destruct (sort_byHostPath endpoints) as [|e0 rest].
  all: destruct createCertsPath, envCredentials, serverConfig_Save.
  all: repeat (cbn [pbind call call_ lift emit fatalIf initServerConfig app fst snd];
               run_step).
  all: cbn; intros H; discriminate H.
Qed.

(** X20. When [sort.Sort] permutes the endpoints, the index [endpoints[0]]
    of [serverMain] is safe: a run that panics was already panicking inside
    [checkServerSyntax]. *)
Theorem serverMain_first_disk_safe (g0 : Globals) (c : Context) (host port : string) :
  (forall l, Permutation (sort_byHostPath l) l) ->
  ~ asksForHelp c ->
  getHostPort checkPortAvailability (address c) = (host, port, None) ->
  snd (main g0 c) = Panic ->
  serverSyntax (mkGlobals host port (globalIsSSL g0)) c = Panic.
Proof.
  intros Hsort Hhelp Hhp.
  assert (Husage : negb (0 <? Z.of_nat (List.length (args c)))
                   || String.eqb (List.hd "" (args c)) "help" = false).
  { destruct (_ || _) eqn:H; [|reflexivity].
    apply asksForHelp_test in H. contradiction. }
  unfold serverMain. rewrite Husage, Hhp.
  destruct (serverSyntax (mkGlobals host port (globalIsSSL g0)) c)
    as [[]|e' t|n|] eqn:Hsyn;
    cbn [lift emit pbind fatalIf app fst snd].
  2,3,4: (cbn; intros H; exact H).
  destruct (parseStorageEndpoints url_Parse _ (args c)) as [endpoints|e];
    cbn [lift emit pbind fatalIf app fst snd]; [|cbn; intros H; discriminate H].
  destruct (isAnyEndpointLocal _ _ endpoints) eqn:Hlocal;
    cbn [negb lift emit pbind fatalIf app fst snd];
    [|cbn; intros H; discriminate H].
  pose proof (Hsort endpoints) as Hperm.
  destruct (sort_byHostPath endpoints) as [|e0 rest].
  { apply Permutation_nil in Hperm. subst endpoints. discriminate Hlocal. }
  destruct createCertsPath, envCredentials, serverConfig_Save.
  all: repeat (cbn [pbind call call_ lift emit fatalIf initServerConfig app fst snd];
               run_step).
  all: cbn; intros H; discriminate H.
Qed.

End StartupMore.


(** ** The further properties on concrete runs *)

Lemma parseStorageEndpoints_empty_token_witness :
  exists e, Example.parse Example.defaultGlobals ["/data"; ""] = Failed e.
Proof.
  refine (proj1 (parseStorageEndpoints_empty_token Plain.url_Parse
                   Example.defaultGlobals ["/data"; ""] _)).
  simpl. auto.
Defined.

Lemma parseStorageEndpoints_keeps_url_witness :
  Forall2 (fun ep u =>
             ep <> "" /\
             exists u0, Plain.url_Parse ep = Ok u0 /\
               Scheme u = Scheme u0 /\ Opaque u = Opaque u0 /\ Path u = Path u0 /\
               RawQuery u = RawQuery u0 /\ Fragment u = Fragment u0 /\
               (Host u = "" <-> Host u0 = ""))
          ["http://node1/export"; "/data"]
          [mkURL "http" "" "node1:9000" "/export" "" ""; Example.disk "/data"].
Proof.
  refine (parseStorageEndpoints_keeps_url Plain.url_Parse Example.defaultGlobals
            ["http://node1/export"; "/data"]
            [mkURL "http" "" "node1:9000" "/export" "" ""; Example.disk "/data"] _).
  reflexivity.
Defined.

Lemma parseStorageEndpoints_bind_host_fixed_witness :
  Forall2 (fun ep u =>
             Plain.url_Parse ep = Ok u /\
             (Host u <> "" ->
              exists h port, net_SplitHostPort (Host u) = (h, port, None) /\ port <> ""))
          (args Example.perDisk) Example.fourNodes.
Proof.
  refine (parseStorageEndpoints_bind_host_fixed Plain.url_Parse Example.node1Globals
            (args Example.perDisk) Example.fourNodes _ _).
  - discriminate.
  - reflexivity.
Defined.

Lemma locality_permutation_witness :
  isDistributedSetup (Plain.isLocalStorage ["node1"]) Example.node1Globals
    Example.fourNodes =
  isDistributedSetup (Plain.isLocalStorage ["node1"]) Example.node1Globals
    (List.rev Example.fourNodes) /\
  isAnyEndpointLocal (Plain.isLocalStorage ["node1"]) Example.node1Globals
    Example.fourNodes =
  isAnyEndpointLocal (Plain.isLocalStorage ["node1"]) Example.node1Globals
    (List.rev Example.fourNodes).
Proof.
  refine (locality_permutation (Plain.isLocalStorage ["node1"]) Example.node1Globals
            Example.fourNodes (List.rev Example.fourNodes) _).
  apply Permutation_rev.
Defined.

Lemma distributed_or_local_witness :
  isDistributedSetup (Plain.isLocalStorage []) Example.node1Globals
    Example.fourNodes = true.
Proof.
  refine (proj1 (distributed_or_local (Plain.isLocalStorage []) Example.node1Globals
                   Example.fourNodes _) _).
  - discriminate.
  - reflexivity.
Defined.

Lemma checkEndpointsSyntax_first_failure_witness :
  checkEndpointsSyntax Plain.URL_String "linux" Plain.error_text
    [Example.disk "/d1"; Example.disk "/"; Example.disk "/d3"] ["/d1"; "/"; "/d3"] =
  Return (Some (Errorf "Empty or root path is not allowed: / (/)")).
Proof.
  refine (checkEndpointsSyntax_first_failure Plain.URL_String "linux" Plain.error_text
            [Example.disk "/d1"] (Example.disk "/") [Example.disk "/d3"]
            ["/d1"; "/"; "/d3"] (Errorf "Empty or root path is not allowed") _ _).
  - repeat constructor.
  - reflexivity.
Defined.

Lemma checkServerSyntax_port_missing_witness :
  Example.serverSyntax ["node1"] Example.halfGlobals Example.halfAddress =
  Fatal errInvalidArgument "Port missing, Host:Port should be specified for --address".
Proof.
  refine (checkServerSyntax_port_missing Plain.url_Parse Plain.URL_String "linux"
            Plain.minErasureBlocks Plain.maxErasureBlocks
            (Plain.isLocalStorage ["node1"]) Plain.checkDuplicateEndpoints
            Plain.error_text Example.halfGlobals Example.halfAddress "node1"
            Example.fourNodes _ _ _).
  - unfold passesLocalChecks. repeat split; reflexivity.
  - discriminate.
  - reflexivity.
Defined.

Lemma checkServerSyntax_no_arguments_witness :
  Example.serverSyntax [] Example.defaultGlobals Example.noArguments = Panic.
Proof.
  refine (checkServerSyntax_no_arguments Plain.url_Parse Plain.URL_String "linux"
            Plain.minErasureBlocks Plain.maxErasureBlocks
            (Plain.isLocalStorage []) Plain.checkDuplicateEndpoints
            Plain.error_text Example.defaultGlobals Example.noArguments "" "9000"
            _ _ _); reflexivity.
Defined.

Lemma serverMain_bind_address_settled_witness :
  getHostPort Example.portFree (address Example.remoteFour) = ("", "9000", None) /\
  Example.serverSyntax [] Example.defaultGlobals Example.remoteFour <>
    Fatal errInvalidArgument "Unable to parse %s.".
Proof.
  split; [reflexivity|].
  refine (proj1 (serverMain_bind_address_settled Plain.url_Parse Plain.URL_String
                   "linux" Plain.minErasureBlocks Plain.maxErasureBlocks
                   (Plain.isLocalStorage []) Plain.checkDuplicateEndpoints
                   Plain.error_text Example.portFree Example.remoteFour "" "9000"
                   Example.defaultGlobals errInvalidArgument _)).
  reflexivity.
Defined.

Lemma serverMain_validation_failure_witness :
  Example.main [] Example.defaultGlobals Example.remotePair =
  ([EvMinioInit; EvCheckUpdate],
   Example.serverSyntax [] Example.defaultGlobals Example.remotePair).
Proof.
  refine (proj2 (serverMain_validation_failure
            Plain.url_Parse Plain.URL_String "linux"
            Plain.minErasureBlocks Plain.maxErasureBlocks
            (Plain.isLocalStorage []) Plain.checkDuplicateEndpoints
            Plain.error_text Example.sortEndpoints
            unit unit unit unit
            (fun _ => None) None false None
            (fun eps => Ok (List.map (fun _ => tt) eps))
            (fun _ => None) (fun _ => Ok tt) (fun _ => None) (fun _ => Ok tt)
            (fun _ _ disks => Ok disks) (fun _ => Ok tt)
            Example.defaultGlobals Example.remotePair _) "" "9000" _ _).
  - intros [H|H]; discriminate H.
  - reflexivity.
  - discriminate.
Defined.

Lemma serverMain_steps_in_order_witness :
  fst (Example.main [] Example.defaultGlobals Example.localDisk) =
  bootSequence ":9000" [Example.disk "/data"] false false true false.
Proof.
  pose proof (serverMain_steps_in_order
            Plain.url_Parse Plain.URL_String "linux"
            Plain.minErasureBlocks Plain.maxErasureBlocks
            (Plain.isLocalStorage []) Plain.checkDuplicateEndpoints
            Plain.error_text Example.sortEndpoints
            unit unit unit unit
            (fun _ => None) None false None
            (fun eps => Ok (List.map (fun _ => tt) eps))
            (fun _ => None) (fun _ => Ok tt) (fun _ => None) (fun _ => Ok tt)
            (fun _ _ disks => Ok disks) (fun _ => Ok tt)
            Example.defaultGlobals Example.localDisk) as H.
  cbv zeta in H.
  destruct H as [_ [H _]].
  - intros [H|H]; discriminate H.
  - exact (H eq_refl).
Defined.

Lemma serverMain_second_parse_witness :
  snd (Example.main [] Example.defaultGlobals Example.emptyToken) =
    Fatal errInvalidArgument "Unable to parse storage endpoints %s" /\
  Example.serverSyntax [] Example.defaultGlobals Example.emptyToken =
    Fatal errInvalidArgument "Unable to parse storage endpoints %s".
Proof.
  split; [reflexivity|].
  refine (serverMain_second_parse
            Plain.url_Parse Plain.URL_String "linux"
            Plain.minErasureBlocks Plain.maxErasureBlocks
            (Plain.isLocalStorage []) Plain.checkDuplicateEndpoints
            Plain.error_text Example.sortEndpoints
            unit unit unit unit
            (fun _ => None) None false None
            (fun eps => Ok (List.map (fun _ => tt) eps))
            (fun _ => None) (fun _ => Ok tt) (fun _ => None) (fun _ => Ok tt)
            (fun _ _ disks => Ok disks) (fun _ => Ok tt)
            Example.defaultGlobals Example.emptyToken "" "9000" errInvalidArgument
            _ _ _).
  - intros [H|H]; discriminate H.
  - reflexivity.
  - reflexivity.
Defined.

Lemma serverMain_first_disk_safe_witness :
  checkServerSyntax Plain.url_Parse Plain.URL_String "windows"
    Plain.minErasureBlocks Plain.maxErasureBlocks
    (Plain.isLocalStorage []) Plain.checkDuplicateEndpoints
    Plain.error_text Example.defaultGlobals Example.driveParent = Panic.
Proof.
  refine (serverMain_first_disk_safe
            Plain.url_Parse Plain.URL_String "windows"
            Plain.minErasureBlocks Plain.maxErasureBlocks
            (Plain.isLocalStorage []) Plain.checkDuplicateEndpoints
            Plain.error_text Example.sortEndpoints
            unit unit unit unit
            (fun _ => None) None false None
            (fun eps => Ok (List.map (fun _ => tt) eps))
            (fun _ => None) (fun _ => Ok tt) (fun _ => None) (fun _ => Ok tt)
            (fun _ _ disks => Ok disks) (fun _ => Ok tt)
            Example.defaultGlobals Example.driveParent "" "9000" _ _ _ _).
  - intros l. apply insertionSort_permutes.
  - intros [H|H]; discriminate H.
  - reflexivity.
  - reflexivity.
Defined.

(** ** Joining and splitting host and port *)

Lemma IndexByte_lower (s : string) (c : ascii) : -1 <= GoString.IndexByte s c.
Proof.
  induction s as [|a s IH]; simpl; [lia|].
  destruct (Ascii.eqb a c); [lia|].
  destruct (Z.ltb_spec (GoString.IndexByte s c) 0); lia.
Qed.

Lemma lacks_cons (a : ascii) (s : string) (c : ascii) :
  lacks (String a s) c <-> a <> c /\ lacks s c.
Proof.
  unfold lacks. simpl. pose proof (IndexByte_lower s c) as Hl.
  destruct (Ascii.eqb_spec a c) as [->|Hac].
  - split; [discriminate | intros [H _]; now elim H].
  - destruct (Z.ltb_spec (GoString.IndexByte s c) 0) as [Hlt|Hge]; split.
    + intros _. split; [assumption | lia].
    + reflexivity.
    + lia.
    + intros [_ Hs]. lia.
Qed.

Lemma lacks_app (a b : string) (c : ascii) :
  lacks a c -> lacks b c -> lacks (a ++ b) c.
Proof.
  induction a as [|x a IH]; simpl; intros Ha Hb; [exact Hb|].
  apply lacks_cons in Ha. destruct Ha as [Hx Ha].
  apply lacks_cons. auto.
Qed.

Lemma last_lacks (s : string) (c : ascii) : lacks s c -> GoString.last s c = -1.
Proof.
  induction s as [|a s IH]; simpl; intros H; [reflexivity|].
  apply lacks_cons in H. destruct H as [Hac H].
  rewrite (IH H). simpl.
  destruct (Ascii.eqb_spec a c); [contradiction | reflexivity].
Qed.

Lemma len_cons (a : ascii) (s : string) : GoString.len (String a s) = GoString.len s + 1.
Proof. unfold GoString.len. simpl. lia. Qed.

Lemma string_length_app (a b : string) :
  String.length (a ++ b) = (String.length a + String.length b)%nat.
Proof.
  induction a as [|x a IH]; simpl; [reflexivity | now rewrite IH].
Qed.

Lemma len_app (a b : string) : GoString.len (a ++ b) = GoString.len a + GoString.len b.
Proof.
  induction a as [|x a IH]; [reflexivity|].
  cbn [String.append]. rewrite !len_cons, IH. lia.
Qed.

Lemma last_app_sep (a b : string) (c : ascii) :
  lacks b c -> GoString.last (a ++ String c b) c = GoString.len a.
Proof.
  intros Hb. induction a as [|x a IH]; cbn [String.append GoString.last].
  - rewrite (last_lacks b c Hb). simpl. now rewrite Ascii.eqb_refl.
  - rewrite IH, len_cons.
    destruct (Z.leb_spec 0 (GoString.len a)) as [Hge|Hlt]; [reflexivity|].
    exfalso. unfold GoString.len in Hlt. lia.
Qed.

Lemma substring_all (s : string) : String.substring 0 (String.length s) s = s.
Proof. induction s as [|a s IH]; simpl; [reflexivity | now rewrite IH]. Qed.

Lemma substring_app_l (a b : string) :
  String.substring 0 (String.length a) (a ++ b) = a.
Proof.
  induction a as [|x a IH]; simpl.
  - destruct b; reflexivity.
  - now rewrite IH.
Qed.

Lemma substring_app_r (a b : string) (n : nat) :
  String.substring (String.length a) n (a ++ b) = String.substring 0 n b.
Proof. induction a as [|x a IH]; simpl; [reflexivity | exact IH]. Qed.

Lemma sliceFrom_0 (s : string) : GoString.sliceFrom s 0 = s.
Proof.
  unfold GoString.sliceFrom, GoString.slice, GoString.len.
  rewrite Z.sub_0_r, Nat2Z.id. apply substring_all.
Qed.

(** [net.SplitHostPort] on an address that does not start with a bracket. *)
Lemma net_SplitHostPort_unbracketed (hostport : string) :
  GoString.IndexByte hostport "[" <> 0 ->
  net_SplitHostPort hostport =
  let i := GoString.last hostport ":" in
  if i <? 0 then addrErr hostport missingPort else
  let host := GoString.slice hostport 0 i in
  if 0 <=? GoString.IndexByte host ":" then addrErr hostport tooManyColons
  else if 0 <=? GoString.IndexByte (GoString.sliceFrom hostport 0) "["
  then addrErr hostport "unexpected '[' in address"
  else if 0 <=? GoString.IndexByte (GoString.sliceFrom hostport 0) "]"
  then addrErr hostport "unexpected ']' in address"
  else (host, GoString.sliceFrom hostport (i + 1), None).
Proof.
  intros Hfirst. unfold net_SplitHostPort. cbv zeta.
  destruct (GoString.last hostport ":" <? 0); [reflexivity|].
  destruct hostport as [|c rest].
  - destruct (0 <=? _); reflexivity.
  - destruct c as [[] [] [] [] [] [] [] []];
      try (destruct (0 <=? GoString.IndexByte _ ":"); reflexivity).
    now elim Hfirst.
Qed.

(** Joining a plain host with a plain port and splitting again gives both
    back. *)
Lemma net_SplitHostPort_JoinHostPort (host port : string) :
  plainHost host -> plainPort port ->
  net_SplitHostPort (net_JoinHostPort host port) = (host, port, None).
Proof.
  intros (Hc & Hp & Hl & Hr) (Pc & Pl & Pr).
  unfold net_JoinHostPort.
  unfold lacks in Hc, Hp. rewrite Hc, Hp. simpl.
  assert (Hlacks : forall c, c <> ":"%char -> lacks host c -> lacks port c ->
                             lacks (host ++ String ":" port) c).
  { intros c Hne Hh Hq. apply lacks_app; [exact Hh|].
    apply lacks_cons. split; [congruence | exact Hq]. }
  pose proof (Hlacks "["%char ltac:(discriminate) Hl Pl) as Hopen.
  pose proof (Hlacks "]"%char ltac:(discriminate) Hr Pr) as Hclose.
  change (host ++ ":" ++ port) with (host ++ String ":" port).
  rewrite net_SplitHostPort_unbracketed by (unfold lacks in Hopen; lia).
  cbv zeta. rewrite (last_app_sep host port ":" Pc).
  assert (Hlen : 0 <= GoString.len host) by (unfold GoString.len; lia).
  destruct (Z.ltb_spec (GoString.len host) 0); [lia|].
  assert (Hhost : GoString.slice (host ++ String ":" port) 0 (GoString.len host) = host).
  { unfold GoString.slice, GoString.len. rewrite Z.sub_0_r, Nat2Z.id.
    apply substring_app_l. }
  rewrite Hhost, Hc, sliceFrom_0. simpl.
  unfold lacks in Hopen, Hclose. rewrite Hopen, Hclose. simpl.
  f_equal. f_equal.
  unfold GoString.sliceFrom, GoString.slice.
  rewrite len_app, len_cons.
  replace (Z.to_nat (GoString.len host + 1)) with (String.length (host ++ ":"))
    by (unfold GoString.len; rewrite string_length_app; simpl; lia).
  replace (host ++ String ":" port) with ((host ++ ":") ++ port)
    by (now rewrite string_app_assoc).
  rewrite substring_app_r.
  replace (Z.to_nat (GoString.len host + (GoString.len port + 1) - (GoString.len host + 1)))
    with (String.length port) by (unfold GoString.len; lia).
  apply substring_all.
Qed.

(** A port that [strconv.Atoi] reads has only a sign and digits. *)
Lemma digits_lacks (s : string) :
  forall (acc v : Z) (c : ascii),
    GoStrconv.digits s acc = Some v ->
    (nat_of_ascii c < 48 \/ 57 < nat_of_ascii c)%nat ->
    lacks s c.
Proof.
  induction s as [|a s IH]; intros acc v c Hd Hc; [reflexivity|].
  simpl in Hd.
  destruct ((48 <=? Z.of_nat (nat_of_ascii a)) && (Z.of_nat (nat_of_ascii a) <=? 57))
    eqn:Hdigit; [|discriminate].
  apply lacks_cons. split; [|eapply IH; eauto].
  intros ->. apply Bool.andb_true_iff in Hdigit. destruct Hdigit as [H1 H2].
  apply Z.leb_le in H1. apply Z.leb_le in H2. lia.
Qed.

Lemma Atoi_plainPort (port : string) (n : Z) :
  GoStrconv.Atoi port = Ok n -> plainPort port.
Proof.
  intros H.
  assert (Hl : forall c, (nat_of_ascii c < 48 \/ 57 < nat_of_ascii c)%nat ->
                         c <> "+"%char -> c <> "-"%char -> lacks port c).
  { intros c Hc Hplus Hminus. unfold GoStrconv.Atoi in H.
    destruct port as [|c0 rest]; [discriminate|].
    assert (Hsign : forall s, (if false then rest else s) = s) by reflexivity.
    destruct (Ascii.eqb c0 "+" || Ascii.eqb c0 "-") eqn:Hs.
    - assert (Hc0 : c0 <> c).
      { apply Bool.orb_true_iff in Hs.
        destruct Hs as [Hs|Hs]; apply Ascii.eqb_eq in Hs; congruence. }
      apply lacks_cons. split; [exact Hc0|].
      destruct rest as [|r0 rest']; [discriminate|].
      destruct (GoStrconv.digits (String r0 rest') 0) eqn:Hd; [|discriminate].
      eapply digits_lacks; eauto.
    - destruct (GoStrconv.digits (String c0 rest) 0) eqn:Hd; [|discriminate].
      eapply digits_lacks; eauto. }
  repeat split; apply Hl; try discriminate; right; vm_compute; lia.
Qed.

Lemma net_JoinHostPort_longer (host port : string) :
  (String.length host < String.length (net_JoinHostPort host port))%nat.
Proof.
  unfold net_JoinHostPort. destruct (_ || _).
  - change ("[" ++ host ++ "]:" ++ port) with (String "[" (host ++ "]:" ++ port)).
    simpl. rewrite string_length_app. lia.
  - rewrite string_length_app. simpl. lia.
Qed.

Section JoinSplit.

Variable url_Parse : string -> result URL.
Variable checkPortAvailability : string -> option error.

(** With no bind host a token whose URL has a host gets the port joined. *)
Lemma parseStorageEndpoint_default (g : Globals) (ep : string) (u u0 : URL) :
  globalMinioHost g = "" ->
  parseStorageEndpoint url_Parse g ep = Ok u ->
  url_Parse ep = Ok u0 -> Host u0 <> "" ->
  u = URL_withHost u0 (net_JoinHostPort (Host u0) (globalMinioPort g)).
Proof.
  intros Hg H Hp Hh.
  destruct (parseStorageEndpoint_accepts url_Parse g ep u H)
    as (_ & u0' & Hp' & Hu & _).
  rewrite Hp in Hp'. injection Hp' as <-.
  destruct Hu as [->|(_ & _ & ->)]; [|reflexivity].
  exfalso. unfold parseStorageEndpoint in H.
  destruct (String.eqb ep ""); [discriminate|]. rewrite Hp in H.
  apply String.eqb_neq in Hh. rewrite Hh in H. simpl in H.
  destruct (net_SplitHostPort (Host u0)) as [[h port] err].
  destruct (match err with
            | Some e => if negb (GoString.Contains (AddrError_Error e)
                                   "missing port in address")
                        then Some (ErrAddr e) else None
            | None => None
            end); [discriminate|].
  apply String.eqb_eq in Hg. rewrite Hg in H.
  destruct (negb (String.eqb port "")); [discriminate|].
  injection H as H. apply (f_equal Host) in H. simpl in H.
  pose proof (net_JoinHostPort_longer (Host u0) (globalMinioPort g)) as Hlen.
  rewrite H in Hlen. lia.
Qed.

(** X21. Under a bind address without host that [getHostPort] accepted, the
    host that [parseStorageEndpoints] gives an endpoint with a plain host
    name (no colon, percent sign or bracket) splits again with
    [net.SplitHostPort] into that host name and the port of the bind
    address. *)
Theorem parseStorageEndpoints_join_splits (address port : string) (ssl : bool)
    (eps : list string) (endpoints : list URL) :
  getHostPort checkPortAvailability address = ("", port, None) ->
  parseStorageEndpoints url_Parse (mkGlobals "" port ssl) eps = Ok endpoints ->
  Forall2 (fun ep u =>
             forall u0, url_Parse ep = Ok u0 -> Host u0 <> "" ->
                        plainHost (Host u0) ->
                        net_SplitHostPort (Host u) = (Host u0, port, None))
          eps endpoints.
Proof.
  intros Hhp H.
  apply getHostPort_split in Hhp. destruct Hhp as (_ & _ & _ & (n & Hn) & _).
  apply Atoi_plainPort in Hn.
  apply parseStorageEndpoints_ok in H.
  induction H as [|ep u eps endpoints Hone _ IH]; constructor; [|exact IH].
  intros u0 Hp Hh Hplain.
  rewrite (parseStorageEndpoint_default (mkGlobals "" port ssl) ep u u0
             eq_refl Hone Hp Hh).
  simpl. now apply net_SplitHostPort_JoinHostPort.
Qed.

End JoinSplit.

(** ** The count of endpoints at the bind address *)

Lemma foundCnt_from_filter (serverAddr : string) (endpoints : list URL) :
  forall z : Z,
    List.fold_left
      (fun cnt ep => if String.eqb (Host ep) serverAddr then cnt + 1 else cnt)
      endpoints z =
    z + Z.of_nat (List.length
                    (List.filter (fun ep => String.eqb (Host ep) serverAddr) endpoints)).
Proof.
  induction endpoints as [|ep rest IH]; intros z; simpl; [lia|].
  rewrite IH. destruct (String.eqb (Host ep) serverAddr); simpl; lia.
Qed.

Lemma filter_length_permutation {A : Type} (f : A -> bool) (l l' : list A) :
  Permutation l l' -> List.length (List.filter f l) = List.length (List.filter f l').
Proof.
  induction 1 as [|x l l' _ IH|x y l|l l' l'' _ IH1 _ IH2]; simpl.
  - reflexivity.
  - destruct (f x); simpl; now rewrite IH.
  - destruct (f x), (f y); reflexivity.
  - now rewrite IH1.
Qed.

(** X22. The count that [checkServerSyntax] takes is the number of
    endpoints whose [Host] is the bind address: it lies between zero and
    the number of endpoints and does not depend on their order. *)
Theorem foundCnt_counts (serverAddr : string) (endpoints : list URL) :
  foundCnt serverAddr endpoints =
    Z.of_nat (List.length
                (List.filter (fun ep => String.eqb (Host ep) serverAddr) endpoints))
  /\ 0 <= foundCnt serverAddr endpoints <= Z.of_nat (List.length endpoints)
  /\ (forall endpoints', Permutation endpoints endpoints' ->
                         foundCnt serverAddr endpoints = foundCnt serverAddr endpoints').
Proof.
  assert (Heq : forall l, foundCnt serverAddr l =
                          Z.of_nat (List.length
                                      (List.filter
                                         (fun ep => String.eqb (Host ep) serverAddr) l))).
  { intros l. unfold foundCnt. now rewrite foundCnt_from_filter. }
  split; [apply Heq|]. split.
  - rewrite Heq.
    pose proof (List.filter_length_le
                  (fun ep => String.eqb (Host ep) serverAddr) endpoints). lia.
  - intros endpoints' Hperm. rewrite !Heq.
    now rewrite (filter_length_permutation _ _ _ Hperm).
Qed.

Lemma parseStorageEndpoints_join_splits_witness :
  Forall2 (fun ep u =>
             forall u0, Plain.url_Parse ep = Ok u0 -> Host u0 <> "" ->
                        plainHost (Host u0) ->
                        net_SplitHostPort (Host u) = (Host u0, "9000", None))
          ["http://node1/export"; "/data"]
          [mkURL "http" "" "node1:9000" "/export" "" ""; Example.disk "/data"].
Proof.
  refine (parseStorageEndpoints_join_splits Plain.url_Parse Example.portFree
            ":9000" "9000" false ["http://node1/export"; "/data"]
            [mkURL "http" "" "node1:9000" "/export" "" ""; Example.disk "/data"] _ _).
  - reflexivity.
  - reflexivity.
Defined.

(** ** The order of the checks in [checkServerSyntax] *)

Section SyntaxOrder.

Variable url_Parse : string -> result URL.
Variable URL_String : URL -> string.
Variable GOOS : string.
Variables minErasureBlocks maxErasureBlocks : Z.
Variable isLocalStorage : Globals -> URL -> bool.
Variable checkDuplicateEndpoints : list URL -> option error.
Variable error_text : error -> string.
Variable g : Globals.

Local Abbreviation serverSyntax :=
  (checkServerSyntax url_Parse URL_String GOOS minErasureBlocks maxErasureBlocks
     isLocalStorage checkDuplicateEndpoints error_text g).

(** X23. Once the bind address splits, [checkServerSyntax] reports the
    first of: an error of [parseStorageEndpoints], an error of the syntax
    check, an error of the duplicate check, an error of
    [checkSufficientDisks] - each with its own message, and whatever the
    later checks would say. *)
Theorem checkServerSyntax_first_error (c : Context) (host portStr : string) :
  net_SplitHostPort (address c) = (host, portStr, None) ->
  (forall e, parseStorageEndpoints url_Parse g (args c) = Failed e ->
             serverSyntax c = Fatal e "Unable to parse storage endpoints %s")
  /\ (forall endpoints,
        parseStorageEndpoints url_Parse g (args c) = Ok endpoints ->
        (forall e,
            checkEndpointsSyntax URL_String GOOS error_text endpoints (args c)
              = Return (Some e) ->
            serverSyntax c = Fatal e "Invalid endpoints found %s")
        /\ (checkEndpointsSyntax URL_String GOOS error_text endpoints (args c)
              = Return None ->
            (forall e, checkDuplicateEndpoints endpoints = Some e ->
                       serverSyntax c = Fatal e "Duplicate entries in %s")
            /\ (checkDuplicateEndpoints endpoints = None ->
                1 < Z.of_nat (List.length endpoints) ->
                forall e,
                  checkSufficientDisks minErasureBlocks maxErasureBlocks endpoints
                    = Some e ->
                  serverSyntax c = Fatal e "Invalid number of disks supplied."))).
Proof.
  intros Hsplit. split.
  - intros e Hparse. now rewrite checkServerSyntax_stages, Hsplit, Hparse.
  - intros endpoints Hparse. split.
    + intros e Hsyn. now rewrite checkServerSyntax_stages, Hsplit, Hparse, Hsyn.
    + intros Hsyn. split.
      * intros e Hdup.
        now rewrite checkServerSyntax_stages, Hsplit, Hparse, Hsyn, Hdup.
      * intros Hdup Hmany e Hcount.
        rewrite checkServerSyntax_stages, Hsplit, Hparse, Hsyn, Hdup.
        unfold sizeCheck. apply Z.ltb_lt in Hmany. now rewrite Hmany, Hcount.
Qed.

End SyntaxOrder.

Lemma checkServerSyntax_first_error_witness :
  checkSufficientDisks Plain.minErasureBlocks Plain.maxErasureBlocks
    [Example.disk "/data"; Example.disk "/data"] = Some errXLMinDisks /\
  Example.serverSyntax [] Example.defaultGlobals Example.twiceTheSame =
    Fatal (Errorf "duplicate endpoints") "Duplicate entries in %s".
Proof.
  split; [reflexivity|].
  refine (proj1 (proj2 (proj2 (checkServerSyntax_first_error
            Plain.url_Parse Plain.URL_String "linux"
            Plain.minErasureBlocks Plain.maxErasureBlocks
            (Plain.isLocalStorage []) Plain.checkDuplicateEndpoints
            Plain.error_text Example.defaultGlobals Example.twiceTheSame
            "" "9000" _) [Example.disk "/data"; Example.disk "/data"] _) _)
            (Errorf "duplicate endpoints") _).
  - reflexivity.
  - reflexivity.
  - reflexivity.
  - reflexivity.
Defined.
